(** * AI-enabled budget tracker: the in-memory store and its two chat routes

    A shallow embedding of [src/app/expenseStore.ts] (the module-level
    store), [src/app/api/entries/route.ts] (the entries endpoint) and the
    assistant chat route, followed by the properties of the written
    specification that concern them.

    TypeScript types are erased when the program runs.  The values the
    handlers read come out of [JSON.parse] (the request body and the model's
    answer, both of type [any]), so a property of an expense is modelled as
    a JSON primitive, and the declared types ([CategoryKey], the
    [dd-MM-yyyy] date format) are predicates on those values. *)

From Stdlib Require Import ZArith NArith Ascii String List.
From stdpp Require Import base tactics option list strings pretty gmap fin_maps.

Local Open Scope string_scope.
#[local] Set Warnings "-register-all".

(** ** JavaScript values *)

(** The primitives a parsed JSON property can hold; [JUndefined] is what
    reading a missing property gives.  Numbers are integers here: the
    modelled code never computes with an amount, it only stores and compares
    them. *)
Inductive prim : Type :=
  | JUndefined
  | JNull
  | JBool (b : bool)
  | JNum (n : Z)
  | JStr (s : string).

#[global] Instance prim_eq_dec : EqDecision prim.
Proof. solve_decision. Defined.

(** Values that are only passed through to the client (the model's
    [data.result]). *)
Inductive json : Type :=
  | JsPrim (p : prim)
  | JsArr (items : list json)
  | JsObj (members : list (string * json)).

(** [ToBoolean]: what [if (v)], [!v], [a && b] and [a || b] test. *)
Definition truthy (v : prim) : bool :=
  match v with
  | JUndefined | JNull => false
  | JBool b => b
  | JNum n => negb (n =? 0)%Z
  | JStr s => negb (String.eqb s EmptyString)
  end.

(** [a === b] on primitives. *)
Definition strict_eq (a b : prim) : bool := bool_decide (a = b).

(** [a || b] *)
Definition js_or (a b : prim) : prim := if truthy a then a else b.

(** [String.prototype.toLowerCase] on the ASCII letters.  (On other code
    points the built-in may differ, but none of them maps to a letter of
    ["total"], the only string the result is compared with.) *)
Definition lower_ascii (c : ascii) : ascii :=
  let n := nat_of_ascii c in
  if (65 <=? n)%nat && (n <=? 90)%nat then ascii_of_nat (n + 32) else c.

Fixpoint toLowerCase (s : string) : string :=
  match s with
  | EmptyString => EmptyString
  | String c rest => String (lower_ascii c) (toLowerCase rest)
  end.

(** [Array.prototype.findIndex]; [None] stands for the [-1] of the source. *)
Fixpoint findIndex {A : Type} (p : A → bool) (l : list A) : option nat :=
  match l with
  | [] => None
  | x :: rest => if p x then Some 0 else S <$> findIndex p rest
  end.

(** ** expenseStore.ts: the data model *)

(** [type CategoryKey = "Food" | "Transport" | ...]; the same nine labels
    are the [validCategories] array of the entries route. *)
Definition validCategories : list string :=
  ["Food"; "Transport"; "Shopping"; "Bills"; "Coffee"; "Entertainment";
   "Health"; "Education"; "Other"].

Definition CategoryKey (v : prim) : Prop :=
  ∃ label, v = JStr label ∧ label ∈ validCategories.

Definition isCategoryKey (v : prim) : bool :=
  match v with
  | JStr label => bool_decide (label ∈ validCategories)
  | _ => false
  end.

(** [type Expense = { id; amount; category; note?; date }].  A missing
    [note] is [JUndefined]. *)
Record Expense : Type := mkExpense {
  e_id : prim;
  e_amount : prim;
  e_category : prim;
  e_note : prim;
  e_date : prim;
}.

#[global] Instance Expense_eq_dec : EqDecision Expense.
Proof. solve_decision. Defined.

(** The [updates] object of [updateExpenseById]: each property is either
    missing ([None]) or present with a value.  Its declared type is
    [Partial<Omit<Expense, 'id'>>], which has no [id]; the entries route
    passes the model's untyped [data] object, so the record keeps a slot for
    it and [typed_updates] says that the slot is empty. *)
Record Updates : Type := mkUpdates {
  u_id : option prim;
  u_amount : option prim;
  u_category : option prim;
  u_note : option prim;
  u_date : option prim;
}.

Definition typed_updates (u : Updates) : Prop := u_id u = None.

(** [{ ...e, ...updates }]: every property present in [updates] replaces
    the one of [e]. *)
Definition spread (e : Expense) (updates : Updates) : Expense :=
  {| e_id := default (e_id e) (u_id updates);
     e_amount := default (e_amount e) (u_amount updates);
     e_category := default (e_category e) (u_category updates);
     e_note := default (e_note e) (u_note updates);
     e_date := default (e_date e) (u_date updates) |}.

(** [type BudgetMap]: an object used as a map from property name to
    limit. *)
Abbreviation BudgetMap := (gmap string prim).

(** The three module-level variables. *)
Record Store : Type := mkStore {
  expenses : list Expense;
  budget : BudgetMap;
  lastTransaction : option Expense;
}.

(** [let expenses = []; let budget = { total: 50000, Food: 15000,
    Entertainment: 5000 }; let lastTransaction = null] *)
Definition initialStore : Store :=
  {| expenses := [];
     budget := <["total" := JNum 50000]>
                 (<["Food" := JNum 15000]>
                    (<["Entertainment" := JNum 5000]> ∅));
     lastTransaction := None |}.

(** ** expenseStore.ts: the operations, as state transformers

    None of them writes into an existing expense object: an update builds a
    new object and stores it in the array.  So a shared reference (the last
    transaction and the first array element) is faithfully a shared value.
    The one function that does write in place, the deprecated
    [updateExpenseByNoteAndDate], is called by no route; it is modelled
    further down, in [ByReference], where objects are held by reference. *)

Definition setExpensesForRequest (clientExpenses : list Expense) (s : Store) : Store :=
  {| expenses := clientExpenses;
     budget := budget s;
     lastTransaction :=
       if bool_decide (0 < length clientExpenses) then clientExpenses !! 0
       else None |}.

Definition addExpense (expense : Expense) (s : Store) : Store :=
  {| expenses := expense :: expenses s;
     budget := budget s;
     lastTransaction := Some expense |}.

Definition getExpenses (s : Store) : list Expense := expenses s.

Definition updateExpenseById (id : prim) (updates : Updates) (s : Store)
  : bool * Store :=
  match findIndex (λ e, strict_eq (e_id e) id) (expenses s) with
  | Some expenseIndex =>
      let expenses' :=
        alter (λ e, spread e updates) expenseIndex (expenses s) in
      let lastTransaction' :=
        match lastTransaction s with
        | Some last =>
            if strict_eq (e_id last) id then expenses' !! expenseIndex
            else Some last
        | None => None
        end in
      (true, {| expenses := expenses';
                budget := budget s;
                lastTransaction := lastTransaction' |})
  | None => (false, s)
  end.

Definition getBudget (s : Store) : BudgetMap := budget s.

Definition setBudget (newBudget : BudgetMap) (s : Store) : Store :=
  {| expenses := expenses s;
     budget := newBudget;
     lastTransaction := lastTransaction s |}.

Definition deleteExpense (id : prim) (s : Store) : Store :=
  {| expenses := filter (λ e, e_id e ≠ id) (expenses s);
     budget := budget s;
     lastTransaction := lastTransaction s |}.

Definition clearExpenses (s : Store) : Store :=
  {| expenses := [];
     budget := budget s;
     lastTransaction := None |}.

Definition getLastTransaction (s : Store) : option Expense := lastTransaction s.

Definition updateLastTransaction (expense : option Expense) (s : Store) : Store :=
  {| expenses := expenses s;
     budget := budget s;
     lastTransaction := expense |}.

(** ** The world outside a request: the clock and the model server *)

(** What [Date.now()] and [new Date()] give while a request is handled:
    the epoch milliseconds and the local calendar date. *)
Record Clock : Type := mkClock {
  now_ms : N;
  day : N;
  month : N;
  year : N;
}.

Definition valid_date (c : Clock) : Prop :=
  (1 ≤ day c ≤ 31)%N ∧ (1 ≤ month c ≤ 12)%N ∧ (1 ≤ year c ≤ 9999)%N.

Fixpoint zeros (k : nat) : string :=
  match k with
  | O => EmptyString
  | S k' => String "0" (zeros k')
  end.

(** date-fns [addLeadingZeros]: the decimal digits, padded on the left with
    zeros up to [targetLength]. *)
Definition addLeadingZeros (n : N) (targetLength : nat) : string :=
  let digits := pretty n in
  zeros (targetLength - String.length digits) ++ digits.

(** date-fns [format(new Date(), 'dd-MM-yyyy')]. *)
Definition format_ddMMyyyy (c : Clock) : string :=
  addLeadingZeros (day c) 2 ++ "-" ++
  addLeadingZeros (month c) 2 ++ "-" ++
  addLeadingZeros (year c) 4.

Definition is_digit (c : ascii) : bool :=
  let n := nat_of_ascii c in (48 <=? n)%nat && (n <=? 57)%nat.

(** The shape [dd-MM-yyyy]: two digits, a dash, two digits, a dash, four
    digits. *)
Definition is_ddMMyyyy (v : prim) : bool :=
  match v with
  | JStr (String d1 (String d2 (String s1 (String m1 (String m2 (String s2
      (String y1 (String y2 (String y3 (String y4 EmptyString)))))))))) =>
      is_digit d1 && is_digit d2 && Ascii.eqb s1 "-" &&
      is_digit m1 && is_digit m2 && Ascii.eqb s2 "-" &&
      is_digit y1 && is_digit y2 && is_digit y3 && is_digit y4
  | _ => false
  end.

(** The object in the model's [data] property, by the properties the
    handlers read or copy; [None] is a missing property. *)
Record ModelData : Type := mkModelData {
  d_id : option prim;
  d_amount : option prim;
  d_category : option prim;
  d_note : option prim;
  d_date : option prim;
  d_result : option json;
}.

(** [d.amount], [d.category], ...: reading a property. *)
Definition prop (p : option prim) : prim := default JUndefined p.

(** [...d]: the properties of [d] that an expense has; spreading [null] or
    [undefined] adds nothing. *)
Definition as_updates (d : option ModelData) : Updates :=
  match d with
  | Some d => {| u_id := d_id d; u_amount := d_amount d;
                 u_category := d_category d; u_note := d_note d;
                 u_date := d_date d |}
  | None => {| u_id := None; u_amount := None; u_category := None;
               u_note := None; u_date := None |}
  end.

(** The object the model answered with.  A missing property reads
    [JUndefined]; [m_data] is [None] when [data] is missing or [null]
    (reading a property of either throws). *)
Record ModelReply : Type := mkModelReply {
  m_intent : prim;
  m_execution_status : prim;
  m_data : option ModelData;
  m_reply : prim;
}.

(** What one call of the model server comes to, inside the [try] block of
    [callAdvancedOllama] and [callAssistantOllama]. *)
Inductive OllamaResult : Type :=
  | FetchRejected                  (* [fetch] rejects: server unreachable *)
  | StatusNotOk (status : Z)       (* [!res.ok], the function throws *)
  | BodyUnreadable                 (* [res.json()] rejects, or no [response] text *)
  | NotJson (text : string)        (* [JSON.parse] throws *)
  | ParsedNull                     (* [JSON.parse] gives [null] or a falsy primitive *)
  | ParsedValue (o : ModelReply).  (* an object; a truthy primitive or an
                                      array reads as one without properties *)

(** The values interpolated into the prompt that is sent. *)
Inductive Prompt : Type :=
  | AdvancedPrompt (today : string) (last : option Expense)
      (recentExpenses : list Expense) (limits : BudgetMap) (message : prim)
  | AssistantPrompt (today : string) (currentMonth : N)
      (allExpenses : list Expense) (limits : BudgetMap) (message : prim).

Record World : Type := mkWorld {
  clock : Clock;
  generate : Prompt → OllamaResult;
}.

Record Context : Type := mkContext {
  ctx_expenses : list Expense;
  ctx_budget : BudgetMap;
  ctx_lastTransaction : option Expense;
}.

(** The [catch] block turns every failure into [null]. *)
Definition parsed_or_null (r : OllamaResult) : option ModelReply :=
  match r with
  | ParsedValue o => Some o
  | FetchRejected | StatusNotOk _ | BodyUnreadable | NotJson _ | ParsedNull => None
  end.

(** The values [callAdvancedOllama] puts into its prompt: today's date, the
    last transaction, [expenses.slice(0, 5)], the budget and the message. *)
Definition advancedPrompt (w : World) (message : prim) (context : Context) : Prompt :=
  let today := format_ddMMyyyy (clock w) in
  AdvancedPrompt today (ctx_lastTransaction context)
    (take 5 (ctx_expenses context)) (ctx_budget context) message.

Definition callAdvancedOllama (w : World) (message : prim) (context : Context)
  : option ModelReply :=
  parsed_or_null (generate w (advancedPrompt w message context)).

Definition assistantPrompt (w : World) (message : prim)
    (allExpenses : list Expense) (limits : BudgetMap) : Prompt :=
  let today := format_ddMMyyyy (clock w) in
  AssistantPrompt today (month (clock w)) allExpenses limits message.

Definition callAssistantOllama (w : World) (message : prim)
    (allExpenses : list Expense) (limits : BudgetMap) : option ModelReply :=
  parsed_or_null (generate w (assistantPrompt w message allExpenses limits)).

(** ** Request handlers: a state monad over the store, with exceptions *)

Inductive Outcome (A : Type) : Type :=
  | Returned (a : A)
  | Thrown (error : string).
Arguments Returned {A} a.
Arguments Thrown {A} error.

(** A handler runs on the module-level store; what it wrote before throwing
    stays written. *)
Definition Handler (A : Type) : Type := Store → Outcome A * Store.

#[global] Instance Handler_ret : MRet Handler := λ A a s, (Returned a, s).

#[global] Instance Handler_bind : MBind Handler := λ A B f m s,
  match m s with
  | (Returned a, s') => f a s'
  | (Thrown error, s') => (Thrown error, s')
  end.

Definition throw {A : Type} (error : string) : Handler A :=
  λ s, (Thrown error, s).

(** Calls into the store module: a getter, a procedure, a function that
    also returns a value. *)
Definition read {A : Type} (getter : Store → A) : Handler A :=
  λ s, (Returned (getter s), s).

Definition write (procedure : Store → Store) : Handler unit :=
  λ s, (Returned (), procedure s).

Definition call {A : Type} (f : Store → A * Store) : Handler A :=
  λ s, let '(a, s') := f s in (Returned a, s').

(** The body of [await req.json()], by the properties a client may send.
    [body_expenses] is [None] unless the property is an array; the handler
    never reads [body_budget].  The elements of the array are objects, as
    the page sends them: an array with an element that is not an object
    ([null], a number, a string) is not among the bodies modelled here. *)
Record Request : Type := mkRequest {
  body_message : prim;
  body_expenses : option (list Expense);
  body_budget : option BudgetMap;
}.

(** The request a handler receives, by what its first statement,
    [const { message, ... } = await req.json()], makes of it. *)
Inductive NextRequest : Type :=
  | JsonRejected                 (* the body is not JSON: [req.json()] rejects *)
  | JsonNull                     (* the body is [null]: destructuring throws *)
  | JsonBody (body : Request).   (* an object; any other value reads as an
                                    object without the properties *)

(** A body counts as the request that carries it. *)
Coercion JsonBody : Request >-> NextRequest.

(** The JSON body of the response.  [JSON.stringify] leaves out a property
    whose value is [undefined]: a [reply] of [JUndefined], or an optional
    property of [None], is not in the body. *)
Record Response : Type := mkResponse {
  reply : prim;
  updatedExpenses : option (list Expense);
  updatedBudget : option BudgetMap;
  summaryData : option json;
  data : option ModelData;
}.

Definition replyOnly (text : prim) : Response :=
  {| reply := text; updatedExpenses := None; updatedBudget := None;
     summaryData := None; data := None |}.

Definition TypeError : string := "TypeError".
Definition SyntaxError : string := "SyntaxError".

(** [o[key] = value] on a plain object.  Every key names a property of its
    own but ["__proto__"], which [Object.prototype] answers with a setter:
    that setter changes the prototype when the value is an object or [null]
    and does nothing otherwise, and in no case gives the object a property
    of its own. *)
Definition assign (key : string) (value : prim) (o : BudgetMap) : BudgetMap :=
  if String.eqb key "__proto__" then o else <[key := value]> o.

(** [case "set_budget"], the same block in both routes. *)
Definition setBudgetCase (parsed : ModelReply) : Handler Response :=
  match m_data parsed with
  | None => throw TypeError
  | Some d =>
      current ← read getBudget;
      newBudget ←
        match prop (d_category d) with
        | JStr category =>
            if truthy (JStr category)
               && negb (String.eqb (toLowerCase category) "total")
            then mret (assign category (prop (d_amount d)) current)
            else mret (<["total" := prop (d_amount d)]> current)
        | other =>
            (* a truthy number or boolean has no [toLowerCase] *)
            if truthy other then throw TypeError
            else mret (<["total" := prop (d_amount d)]> current)
        end;
      write (setBudget newBudget);;
      updated ← read getBudget;
      mret {| reply := m_reply parsed; updatedExpenses := None;
              updatedBudget := Some updated; summaryData := None;
              data := None |}
  end.

(** *** src/app/api/entries/route.ts *)

Definition entriesFallback : prim :=
  JStr "⚠️ I couldn’t understand that. Could you rephrase?".
Definition noRecentTransaction : prim :=
  JStr "🤔 There's no recent transaction to update.".
Definition transactionNotFound : prim :=
  JStr "❌ Sorry, I couldn't find the transaction to update.".
Definition notSure : prim :=
  JStr "🤔 I'm not sure how to handle that request.".

(** The first statement of [POST]: the store takes the client's list when
    the body has one. *)
Definition hydrate (req : Request) : Handler unit :=
  match body_expenses req with
  | Some clientExpenses => write (setExpensesForRequest clientExpenses)
  | None => mret ()
  end.

Definition logExpenseCase (w : World) (parsed : ModelReply) : Handler Response :=
  match m_data parsed with
  | None => throw TypeError
  | Some d =>
      let newExpense :=
        {| e_id := JStr (pretty (now_ms (clock w)));
           e_amount := prop (d_amount d);
           e_category := prop (d_category d);
           e_note := prop (d_note d);
           e_date := js_or (prop (d_date d)) (JStr (format_ddMMyyyy (clock w))) |} in
      write (addExpense newExpense);;
      updated ← read getExpenses;
      mret {| reply := m_reply parsed; updatedExpenses := Some updated;
              updatedBudget := None; summaryData := None; data := None |}
  end.

Definition updateLastExpenseCase (parsed : ModelReply) : Handler Response :=
  lastTx ← read getLastTransaction;
  match lastTx with
  | None => mret (replyOnly noRecentTransaction)
  | Some lastTx =>
      let d := as_updates (m_data parsed) in
      success ← call (updateExpenseById (e_id lastTx) d);
      if success : bool then
        let updatedTxInMemory := spread lastTx d in
        write (updateLastTransaction (Some updatedTxInMemory));;
        updated ← read getExpenses;
        mret {| reply := m_reply parsed; updatedExpenses := Some updated;
                updatedBudget := None; summaryData := None; data := None |}
      else mret (replyOnly transactionNotFound)
  end.

Definition getSummaryCase (parsed : ModelReply) : Handler Response :=
  match m_data parsed with
  | None => throw TypeError
  | Some d =>
      mret {| reply := m_reply parsed; updatedExpenses := None;
              updatedBudget := None; summaryData := d_result d; data := None |}
  end.

(** The part of [POST] after the model has answered. *)
Definition respond (w : World) (answer : option ModelReply) : Handler Response :=
  match answer with
  | None => mret (replyOnly entriesFallback)
  | Some parsed =>
      if negb (truthy (m_intent parsed))
         || strict_eq (m_execution_status parsed) (JStr "ERROR")
      then mret (replyOnly entriesFallback)
      else if strict_eq (m_execution_status parsed) (JStr "CLARIFICATION_NEEDED")
      then mret {| reply := m_reply parsed; updatedExpenses := None;
                   updatedBudget := None; summaryData := None;
                   data := m_data parsed |}
      else if strict_eq (m_intent parsed) (JStr "log_expense")
      then logExpenseCase w parsed
      else if strict_eq (m_intent parsed) (JStr "update_last_expense")
      then updateLastExpenseCase parsed
      else if strict_eq (m_intent parsed) (JStr "get_summary")
      then getSummaryCase parsed
      else if strict_eq (m_intent parsed) (JStr "set_budget")
      then setBudgetCase parsed
      else if strict_eq (m_intent parsed) (JStr "get_advice")
      then mret (replyOnly (m_reply parsed))
      else mret (replyOnly notSure)
  end.

Definition currentContext : Handler Context :=
  currentExpenses ← read getExpenses;
  currentBudget ← read getBudget;
  last ← read getLastTransaction;
  mret {| ctx_expenses := currentExpenses;
          ctx_budget := currentBudget;
          ctx_lastTransaction := last |}.

Definition POST (w : World) (req : NextRequest) : Handler Response :=
  match req with
  | JsonRejected => throw SyntaxError
  | JsonNull => throw TypeError
  | JsonBody body =>
      hydrate body;;
      context ← currentContext;
      respond w (callAdvancedOllama w (body_message body) context)
  end.

(** [GET]: the stored list and budget. *)
Definition GET : Handler (list Expense * BudgetMap) :=
  currentExpenses ← read getExpenses;
  currentBudget ← read getBudget;
  mret (currentExpenses, currentBudget).

(** *** The assistant chat route *)

Definition chatFallback : prim :=
  JStr "⚠️ I had trouble understanding that. Could you rephrase your question?".

Definition chatPOST (w : World) (req : NextRequest) : Handler Response :=
  match req with
  | JsonRejected => throw SyntaxError
  | JsonNull => throw TypeError
  | JsonBody body =>
      currentExpenses ← read getExpenses;
      currentBudget ← read getBudget;
      match callAssistantOllama w (body_message body) currentExpenses currentBudget with
      | None => mret (replyOnly chatFallback)
      | Some parsed =>
          if negb (truthy (m_intent parsed))
          then mret (replyOnly chatFallback)
          else if strict_eq (m_intent parsed) (JStr "set_budget")
          then setBudgetCase parsed
          else if strict_eq (m_intent parsed) (JStr "get_summary")
                  || strict_eq (m_intent parsed) (JStr "get_advice")
          then getSummaryCase parsed
          else mret (replyOnly (js_or (m_reply parsed) notSure))
      end
  end.

(** ** Notions the properties are stated with *)

(** "The newest array element is the last transaction": the last
    transaction is the first element, and [null] for the empty list. *)
Definition synced (s : Store) : Prop :=
  match expenses s with
  | [] => lastTransaction s = None
  | newest :: _ => lastTransaction s = Some newest
  end.

#[global] Instance synced_dec (s : Store) : Decision (synced s).
Proof. unfold synced. destruct (expenses s); apply _. Defined.

(** One call of a store operation. *)
Inductive StoreOp : Type :=
  | OpSetExpensesForRequest (clientExpenses : list Expense)
  | OpAddExpense (expense : Expense)
  | OpUpdateExpenseById (id : prim) (updates : Updates)
  | OpDeleteExpense (id : prim)
  | OpClearExpenses
  | OpUpdateLastTransaction (expense : option Expense).

Definition apply_op (op : StoreOp) (s : Store) : Store :=
  match op with
  | OpSetExpensesForRequest clientExpenses => setExpensesForRequest clientExpenses s
  | OpAddExpense expense => addExpense expense s
  | OpUpdateExpenseById id updates => (updateExpenseById id updates s).2
  | OpDeleteExpense id => deleteExpense id s
  | OpClearExpenses => clearExpenses s
  | OpUpdateLastTransaction expense => updateLastTransaction expense s
  end.

(** The states the module can be in after calls of the operations in
    [allowed], starting from the module's initial values. *)
Inductive reachable_by (allowed : StoreOp → Prop) : Store → Prop :=
  | reach_initial : reachable_by allowed initialStore
  | reach_step op s :
      allowed op → reachable_by allowed s → reachable_by allowed (apply_op op s).

Definition any_op (op : StoreOp) : Prop := True.

(** Every operation but [deleteExpense] and [updateLastTransaction]. *)
Definition syncing_op (op : StoreOp) : Prop :=
  match op with
  | OpDeleteExpense _ | OpUpdateLastTransaction _ => False
  | _ => True
  end.

(** [u] holds [new] if present, and leaves [old] otherwise. *)
Definition merged_field (old new : prim) (u : option prim) : Prop :=
  match u with
  | Some v => new = v
  | None => new = old
  end.

Definition merged (e : Expense) (updates : Updates) (e' : Expense) : Prop :=
  merged_field (e_id e) (e_id e') (u_id updates) ∧
  merged_field (e_amount e) (e_amount e') (u_amount updates) ∧
  merged_field (e_category e) (e_category e') (u_category updates) ∧
  merged_field (e_note e) (e_note e') (u_note updates) ∧
  merged_field (e_date e) (e_date e') (u_date updates).

(** [i] is the position of the first element of [l] whose id is [id]. *)
Definition first_match (id : prim) (l : list Expense) (i : nat) : Prop :=
  (∃ e, l !! i = Some e ∧ e_id e = id) ∧
  ∀ j e, j < i → l !! j = Some e → e_id e ≠ id.

(** The store a request is answered on, the context built from it and the
    model's answer for it. *)
Definition hydrated (req : Request) (s : Store) : Store := (hydrate req s).2.

Definition contextOf (s : Store) : Context :=
  {| ctx_expenses := getExpenses s; ctx_budget := getBudget s;
     ctx_lastTransaction := getLastTransaction s |}.

Definition answer (w : World) (req : Request) (s : Store) : option ModelReply :=
  callAdvancedOllama w (body_message req) (contextOf (hydrated req s)).

(** The answer passes both early returns of [POST] and reaches the
    [switch]. *)
Definition proceeds (parsed : ModelReply) : bool :=
  truthy (m_intent parsed)
  && negb (strict_eq (m_execution_status parsed) (JStr "ERROR"))
  && negb (strict_eq (m_execution_status parsed) (JStr "CLARIFICATION_NEEDED")).

(** The call of the model server failed, or what it returned has no
    [intent]. *)
Definition no_usable_answer (r : OllamaResult) : Prop :=
  match r with
  | ParsedValue o => truthy (m_intent o) = false
  | FetchRejected | StatusNotOk _ | BodyUnreadable | NotJson _ | ParsedNull => True
  end.

Definition valid_categories (l : list Expense) : Prop :=
  Forall (λ e, CategoryKey (e_category e)) l.

Definition valid_store (s : Store) : Prop :=
  valid_categories (expenses s) ∧
  ∀ e, lastTransaction s = Some e → CategoryKey (e_category e).

(** The optional properties present in a response body. *)
Definition extras (r : Response) : list string :=
  (if updatedExpenses r is Some _ then ["updatedExpenses"] else []) ++
  (if updatedBudget r is Some _ then ["updatedBudget"] else []) ++
  (if summaryData r is Some _ then ["summaryData"] else []) ++
  (if data r is Some _ then ["data"] else []).

(** *** Sample values *)

Definition latte : Expense :=
  {| e_id := JStr "1"; e_amount := JNum 120; e_category := JStr "Coffee";
     e_note := JStr "latte"; e_date := JStr "05-03-2024" |}.

Definition bus : Expense :=
  {| e_id := JStr "2"; e_amount := JNum 40; e_category := JStr "Transport";
     e_note := JUndefined; e_date := JStr "04-03-2024" |}.

Definition sampleClock : Clock :=
  {| now_ms := 1709636400000; day := 5; month := 3; year := 2024 |}.

Definition worldWith (r : OllamaResult) : World :=
  {| clock := sampleClock; generate := λ _, r |}.

Definition noData : ModelData :=
  {| d_id := None; d_amount := None; d_category := None; d_note := None;
     d_date := None; d_result := None |}.

Definition say (text : string) : Request :=
  {| body_message := JStr text; body_expenses := None; body_budget := None |}.

Definition clientBudget : BudgetMap := {[ "total" := JNum 1 ]}.

Definition requestWithBudget : Request :=
  {| body_message := JStr "hello"; body_expenses := Some [latte];
     body_budget := Some clientBudget |}.

(** Two, and four, decimal digits. *)
Definition two_digits (s : string) : bool :=
  match s with
  | String a (String b EmptyString) => is_digit a && is_digit b
  | _ => false
  end.

Definition four_digits (s : string) : bool :=
  match s with
  | String a (String b (String c (String d EmptyString))) =>
      is_digit a && is_digit b && is_digit c && is_digit d
  | _ => false
  end.

(** The model logs an expense and dates it the ISO way. *)
Definition isoDated : ModelReply :=
  {| m_intent := JStr "log_expense"; m_execution_status := JStr "SUCCESS";
     m_data := Some {| d_id := None; d_amount := Some (JNum 120);
                       d_category := Some (JStr "Coffee");
                       d_note := Some (JStr "latte");
                       d_date := Some (JStr "2024-03-05");
                       d_result := None |};
     m_reply := JStr "Logged 120 for Coffee." |}.

(** The model logs an expense without a date. *)
Definition undated : ModelReply :=
  {| m_intent := JStr "log_expense"; m_execution_status := JStr "SUCCESS";
     m_data := Some {| d_id := None; d_amount := Some (JNum 120);
                       d_category := Some (JStr "Coffee");
                       d_note := Some (JStr "latte");
                       d_date := None; d_result := None |};
     m_reply := JStr "Logged 120 for Coffee." |}.

(** The model logs an expense under a label of its own. *)
Definition groceries : ModelReply :=
  {| m_intent := JStr "log_expense"; m_execution_status := JStr "SUCCESS";
     m_data := Some {| d_id := None; d_amount := Some (JNum 800);
                       d_category := Some (JStr "Groceries");
                       d_note := Some (JStr "weekly shop");
                       d_date := Some (JStr "05-03-2024");
                       d_result := None |};
     m_reply := JStr "Logged 800 for Groceries." |}.

(** Two characters that are the same letter, in either case, or the same
    character. *)
Definition is_upper (c : ascii) : bool :=
  let n := nat_of_ascii c in (65 <=? n)%nat && (n <=? 90)%nat.

Definition same_letter (a b : ascii) : bool :=
  Ascii.eqb a b
  || (is_upper a && Nat.eqb (nat_of_ascii b) (nat_of_ascii a + 32))
  || (is_upper b && Nat.eqb (nat_of_ascii a) (nat_of_ascii b + 32)).

(** Two strings compared case-insensitively, character by character. *)
Fixpoint equal_ignoring_case (a b : string) : bool :=
  match a, b with
  | EmptyString, EmptyString => true
  | String x a', String y b' => same_letter x y && equal_ignoring_case a' b'
  | _, _ => false
  end.

(** The entry a [set_budget] request names: the category it gives, and
    ["total"] when it gives none or gives "total" in any letter case. *)
Definition namedEntry (category : prim) : string :=
  match category with
  | JStr c =>
      if String.eqb c EmptyString || equal_ignoring_case c "total" then "total" else c
  | _ => "total"
  end.

(** The category is a string, or is missing (or otherwise falsy). *)
Definition readable_category (category : prim) : Prop :=
  (∃ c, category = JStr c) ∨ truthy category = false.

Definition budgetFor (category : option prim) (limit : Z) : ModelReply :=
  {| m_intent := JStr "set_budget"; m_execution_status := JStr "SUCCESS";
     m_data := Some {| d_id := None; d_amount := Some (JNum limit);
                       d_category := category; d_note := None;
                       d_date := None; d_result := None |};
     m_reply := JStr "Budget updated." |}.

(** The model kept to the nine labels, where its answer puts a category
    into an expense. *)
Definition model_categories_valid (parsed : ModelReply) : Prop :=
  (m_intent parsed = JStr "log_expense" →
   ∀ d, m_data parsed = Some d → CategoryKey (prop (d_category d))) ∧
  (m_intent parsed = JStr "update_last_expense" →
   ∀ d c, m_data parsed = Some d → d_category d = Some c → CategoryKey c).

(** A handler that keeps the store's categories valid and returns valid
    lists. *)
Definition keeps_valid (h : Handler Response) : Prop :=
  ∀ s, valid_store s →
       valid_store (h s).2 ∧
       ∀ resp l, (h s).1 = Returned resp → updatedExpenses resp = Some l →
                 valid_categories l.

(** The model asks to change the last expense. *)
Definition changeTo250 : ModelReply :=
  {| m_intent := JStr "update_last_expense"; m_execution_status := JStr "SUCCESS";
     m_data := Some {| d_id := None; d_amount := Some (JNum 250);
                       d_category := None; d_note := None; d_date := None;
                       d_result := None |};
     m_reply := JStr "Updated the amount to 250." |}.

Definition firstMessage (text : string) : Request :=
  {| body_message := JStr text; body_expenses := Some []; body_budget := None |}.

(** What a result of the entries handler may hold, given the model's answer
    [response]: the reply is a fixed message or the model's reply; at most
    one optional property is present, and each one only for its intent.  An
    exception means that the model's data was missing or its category
    unreadable. *)
Definition well_shaped (response : option ModelReply)
    (result : Outcome Response * Store) : Prop :=
  match result with
  | (Returned resp, s') =>
      (reply resp ∈ [entriesFallback; noRecentTransaction; transactionNotFound; notSure]
       ∨ ∃ parsed, response = Some parsed ∧ reply resp = m_reply parsed) ∧
      (length (extras resp) ≤ 1)%nat ∧
      (∀ l, updatedExpenses resp = Some l →
            l = expenses s' ∧
            ∃ parsed, response = Some parsed ∧
                      (m_intent parsed = JStr "log_expense"
                       ∨ m_intent parsed = JStr "update_last_expense")) ∧
      (∀ limits, updatedBudget resp = Some limits →
            limits = budget s' ∧
            ∃ parsed, response = Some parsed ∧ m_intent parsed = JStr "set_budget") ∧
      (∀ summary, summaryData resp = Some summary →
            ∃ parsed d, response = Some parsed ∧ m_intent parsed = JStr "get_summary" ∧
                        m_data parsed = Some d ∧ d_result d = Some summary) ∧
      (∀ d, data resp = Some d →
            ∃ parsed, response = Some parsed ∧
                      m_execution_status parsed = JStr "CLARIFICATION_NEEDED" ∧
                      m_data parsed = Some d)
  | (Thrown _, _) =>
      ∃ parsed, response = Some parsed ∧ proceeds parsed = true ∧
                (m_data parsed = None
                 ∨ ∃ d, m_data parsed = Some d ∧
                        ¬ readable_category (prop (d_category d)))
  end.

(** *** Further notions *)

(** The intents whose case of the entries route reads a property of the
    model's data. *)
Definition reads_data (intent : prim) : bool :=
  strict_eq intent (JStr "log_expense")
  || strict_eq intent (JStr "get_summary")
  || strict_eq intent (JStr "set_budget").

(** The answers on which the entries handler throws. *)
Definition entries_failure (parsed : ModelReply) : Prop :=
  proceeds parsed = true ∧
  ((reads_data (m_intent parsed) = true ∧ m_data parsed = None) ∨
   (m_intent parsed = JStr "set_budget" ∧
    ∃ d, m_data parsed = Some d ∧ ¬ readable_category (prop (d_category d)))).

(** The model's answer in the chat route. *)
Definition chatAnswer (w : World) (req : Request) (s : Store) : option ModelReply :=
  callAssistantOllama w (body_message req) (getExpenses s) (getBudget s).

(** The intents whose case of the chat route reads a property of the
    model's data. *)
Definition chat_reads_data (intent : prim) : bool :=
  strict_eq intent (JStr "set_budget")
  || strict_eq intent (JStr "get_summary")
  || strict_eq intent (JStr "get_advice").

Definition chat_failure (parsed : ModelReply) : Prop :=
  truthy (m_intent parsed) = true ∧
  ((chat_reads_data (m_intent parsed) = true ∧ m_data parsed = None) ∨
   (m_intent parsed = JStr "set_budget" ∧
    ∃ d, m_data parsed = Some d ∧ ¬ readable_category (prop (d_category d)))).

(** The same answer with another [execution_status]. *)
Definition with_status (status : prim) (parsed : ModelReply) : ModelReply :=
  {| m_intent := m_intent parsed; m_execution_status := status;
     m_data := m_data parsed; m_reply := m_reply parsed |}.

(** The model asks for clarification about an expense it could have
    logged. *)
Definition unsure : ModelReply :=
  {| m_intent := JStr "log_expense";
     m_execution_status := JStr "CLARIFICATION_NEEDED";
     m_data := Some {| d_id := None; d_amount := Some (JNum 120);
                       d_category := None; d_note := None; d_date := None;
                       d_result := None |};
     m_reply := JStr "Which category is this?" |}.

(** ** The page: the chat panel and the category budgets

    The page keeps the expense list and the budget in React state
    ([useState]); only these two are modelled. *)
Record Page : Type := mkPage {
  p_expenses : list Expense;
  p_budget : BudgetMap;
}.

(** [handleDataUpdate]: an array or an object is truthy, a missing property
    is not. *)
Definition handleDataUpdate (updatedExpenses : option (list Expense))
    (updatedBudget : option BudgetMap) (page : Page) : Page :=
  {| p_expenses := if updatedExpenses is Some l then l else p_expenses page;
     p_budget := if updatedBudget is Some limits then limits else p_budget page |}.

(** What [JSON.stringify] followed by [JSON.parse] makes of a budget
    object: a property whose value is [undefined] is left out.  (An expense
    loses its [undefined] fields in the same way, and reading a field that
    is missing gives [undefined] again, so an [Expense] is unchanged.) *)
Definition over_json (limits : BudgetMap) : BudgetMap :=
  filter (λ entry, strict_eq entry.2 JUndefined = false) limits.

(** The keys of [CATEGORIES], in the order of the source. *)
Definition CATEGORIES : list string :=
  ["Food"; "Transport"; "Shopping"; "Bills"; "Coffee"; "Entertainment";
   "Health"; "Education"; "Other"].

Section PageFunctions.

(** [!messageText.trim()]: the text is empty or white space only. *)
Variable blank : string → bool.
(** [s > 0] for a string [s], which JavaScript first converts to a
    number. *)
Variable positive_text : string → bool.

(** [handleSend], as far as the list and the budget go.  The body sent is
    [{ message, expenses }], with the page's list.  [delivered] is [false]
    when [fetch] rejects; a handler that throws makes the response not [ok];
    both end in the [catch] block, which changes neither list nor budget.
    The page reads the response with [res.json()], so the budget it sees is
    the handler's after [over_json]. *)
Definition handleSend (w : World) (delivered : bool) (messageText : string)
    (loading : bool) (page : Page) (server : Store) : Page * Store :=
  if blank messageText || loading then (page, server)
  else if negb delivered then (page, server)
  else
    match POST w {| body_message := JStr messageText;
                    body_expenses := Some (p_expenses page);
                    body_budget := None |} server with
    | (Returned answered, server') =>
        let data_updatedExpenses := updatedExpenses answered in
        let data_updatedBudget := over_json <$> updatedBudget answered in
        (if data_updatedExpenses is Some _
         then handleDataUpdate data_updatedExpenses data_updatedBudget page
         else if data_updatedBudget is Some _
         then handleDataUpdate data_updatedExpenses data_updatedBudget page
         else page,
         server')
    | (Thrown _, server') => (page, server')
    end.

(** [v > 0] *)
Definition positive (v : prim) : bool :=
  match v with
  | JNum n => (0 <? n)%Z
  | JBool b => b
  | JStr s => positive_text s
  | JNull | JUndefined => false
  end.

(** [budget[cat.key] !== undefined && budget[cat.key]! > 0] *)
Definition budgeted (limits : BudgetMap) (key : string) : bool :=
  negb (strict_eq (prop (limits !! key)) JUndefined)
  && positive (prop (limits !! key)).

Definition budgetedCategories (limits : BudgetMap) : list string :=
  filter (λ key, budgeted limits key = true) CATEGORIES.

(** The rows of the [CategoryBudgets] card, by their keys; [None] is the
    [null] it returns when there is nothing to show. *)
Definition CategoryBudgets (limits : BudgetMap) : option (list string) :=
  if bool_decide (length (budgetedCategories limits) = 0) then None
  else Some (budgetedCategories limits).

End PageFunctions.

(** White space only, for texts of plain spaces. *)
Definition allSpaces (text : string) : bool :=
  forallb (λ c, Ascii.eqb c " ") (list_ascii_of_string text).

(** ** expenseStore.ts once more, with expense objects held by reference

    [updateExpenseByNoteAndDate] writes into an expense object, which the
    array and the last transaction may share.  To say what it does, the
    expense objects are put into a heap here, and the array and the last
    transaction hold references to them. *)
Module ByReference.

Record RefStore : Type := mkRefStore {
  objects : gmap nat Expense;
  refs : list nat;
  limits : BudgetMap;
  lastRef : option nat;
}.

(** Every reference the store holds points to an object. *)
Definition wf (s : RefStore) : Prop :=
  Forall (λ r, is_Some (objects s !! r)) (refs s) ∧
  ∀ r, lastRef s = Some r → is_Some (objects s !! r).

(** The store as the value model sees it. *)
Definition contents (s : RefStore) : Store :=
  {| expenses := omap (λ r, objects s !! r) (refs s);
     budget := limits s;
     lastTransaction := lastRef s ≫= (λ r, objects s !! r) |}.

(** [e.id === id], for the object [e] behind [r]. *)
Definition has_id (s : RefStore) (id : prim) (r : nat) : bool :=
  match objects s !! r with
  | Some e => strict_eq (e_id e) id
  | None => false
  end.

(** The caller hands over references to objects it has created (by
    [JSON.parse], or as an object literal). *)
Definition setExpensesForRequest (clientExpenses : list nat) (s : RefStore) : RefStore :=
  {| objects := objects s;
     refs := clientExpenses;
     limits := limits s;
     lastRef :=
       if bool_decide (0 < length clientExpenses) then clientExpenses !! 0
       else None |}.

Definition addExpense (expense : nat) (s : RefStore) : RefStore :=
  {| objects := objects s;
     refs := expense :: refs s;
     limits := limits s;
     lastRef := Some expense |}.

(** [{ ...expenses[expenseIndex], ...updates }] is a new object. *)
Definition updateExpenseById (id : prim) (updates : Updates) (s : RefStore)
  : bool * RefStore :=
  match findIndex (has_id s id) (refs s) with
  | Some expenseIndex =>
      match refs s !! expenseIndex ≫= (λ r, objects s !! r) with
      | Some old =>
          let new := fresh (dom (objects s)) in
          (true,
           {| objects := <[new := spread old updates]> (objects s);
              refs := <[expenseIndex := new]> (refs s);
              limits := limits s;
              lastRef :=
                match lastRef s with
                | Some last => if has_id s id last then Some new else Some last
                | None => None
                end |})
      | None => (true, s)
      end
  | None => (false, s)
  end.

Definition deleteExpense (id : prim) (s : RefStore) : RefStore :=
  {| objects := objects s;
     refs := filter (λ r, has_id s id r = false) (refs s);
     limits := limits s;
     lastRef := lastRef s |}.

Definition clearExpenses (s : RefStore) : RefStore :=
  {| objects := objects s; refs := []; limits := limits s; lastRef := None |}.

Definition updateLastTransaction (expense : option nat) (s : RefStore) : RefStore :=
  {| objects := objects s; refs := refs s; limits := limits s;
     lastRef := expense |}.

(** [findIndex] with a callback that may throw: the search ends at the
    first element the callback accepts or fails on. *)
Fixpoint findIndexE {A : Type} (p : A → Outcome bool) (l : list A)
  : Outcome (option nat) :=
  match l with
  | [] => Returned None
  | x :: rest =>
      match p x with
      | Thrown error => Thrown error
      | Returned true => Returned (Some 0)
      | Returned false =>
          match findIndexE p rest with
          | Returned found => Returned (S <$> found)
          | Thrown error => Thrown error
          end
      end
  end.

(** [e.amount = newAmount] *)
Definition with_amount (newAmount : prim) (e : Expense) : Expense :=
  {| e_id := e_id e; e_amount := newAmount; e_category := e_category e;
     e_note := e_note e; e_date := e_date e |}.

Section updateExpenseByNoteAndDate.

(** The built-in [String.prototype.toLowerCase]. *)
Variable lower : string → string.

(** [(e.note?.toLowerCase() === note.toLowerCase() ||
      e.category.toLowerCase() === note.toLowerCase()) && e.date === date].
    A note that is not a string, [undefined] or [null], and a category that
    is not a string, have no [toLowerCase]: the callback throws. *)
Definition matches (note date : string) (e : Expense) : Outcome bool :=
  match
    match e_note e with
    | JUndefined | JNull => Returned false
    | JStr n => Returned (String.eqb (lower n) (lower note))
    | JBool _ | JNum _ => Thrown TypeError
    end
  with
  | Thrown error => Thrown error
  | Returned byNote =>
      match
        if byNote then Returned true
        else match e_category e with
             | JStr c => Returned (String.eqb (lower c) (lower note))
             | _ => Thrown TypeError
             end
      with
      | Thrown error => Thrown error
      | Returned byNoteOrCategory =>
          Returned (byNoteOrCategory && strict_eq (e_date e) (JStr date))
      end
  end.

Definition matches_ref (s : RefStore) (note date : string) (r : nat) : Outcome bool :=
  match objects s !! r with
  | Some e => matches note date e
  | None => Thrown TypeError
  end.

Definition updateExpenseByNoteAndDate (note date : string) (newAmount : prim)
    (s : RefStore) : Outcome bool * RefStore :=
  match findIndexE (matches_ref s note date) (refs s) with
  | Thrown error => (Thrown error, s)
  | Returned None => (Returned false, s)
  | Returned (Some expenseIndex) =>
      match refs s !! expenseIndex with
      | Some r =>
          (Returned true,
           {| objects := alter (with_amount newAmount) r (objects s);
              refs := refs s; limits := limits s; lastRef := lastRef s |})
      | None => (Returned true, s)
      end
  end.

End updateExpenseByNoteAndDate.

(** Notes are strings or missing and categories are strings, as the type
    [Expense] declares. *)
Definition typed_text (e : Expense) : Prop :=
  (e_note e = JUndefined ∨ ∃ n, e_note e = JStr n) ∧ ∃ c, e_category e = JStr c.

End ByReference.

(** The two expenses of the samples, as objects 1 and 2 of a heap; the
    last transaction is the object of the first array element. *)
Definition sharedStore : ByReference.RefStore :=
  {| ByReference.objects := <[1 := latte]> (<[2 := bus]> ∅);
     ByReference.refs := [1; 2];
     ByReference.limits := ∅;
     ByReference.lastRef := Some 1 |}.

(** The model asks to change the last expense and gives it another id. *)
Definition renumber : ModelReply :=
  {| m_intent := JStr "update_last_expense"; m_execution_status := JStr "SUCCESS";
     m_data := Some {| d_id := Some (JStr "9"); d_amount := Some (JNum 250);
                       d_category := None; d_note := None; d_date := None;
                       d_result := None |};
     m_reply := JStr "Updated the amount to 250." |}.

(** Reading a string of decimal digits as a number. *)
Definition digit_value (c : ascii) : N := (N_of_ascii c - 48)%N.

Fixpoint read_digits (s : string) (acc : N) : N :=
  match s with
  | EmptyString => acc
  | String c rest => read_digits rest (acc * 10 + digit_value c)
  end.

Definition read_decimal (s : string) : N := read_digits s 0.

Fixpoint all_digits (s : string) : bool :=
  match s with
  | EmptyString => true
  | String c rest => is_digit c && all_digits rest
  end.

(** A decimal numeral as [Number.prototype.toString] writes a natural
    number: digits only, at least one, and no zero in front of others. *)
Definition is_numeral (s : string) : bool :=
  all_digits s &&
  match s with
  | EmptyString => false
  | String c EmptyString => true
  | String c _ => negb (Ascii.eqb c "0")
  end.

(** The sample world one millisecond later. *)
Definition aMillisecondLater (r : OllamaResult) : World :=
  {| clock := {| now_ms := 1709636400001; day := 5; month := 3; year := 2024 |};
     generate := λ _, r |}.

(** * Properties *)

(** ** Searching a list *)

Section findIndex_facts.
Context {A : Type} (p : A → bool).

Lemma findIndex_Some (l : list A) (i : nat) :
  findIndex p l = Some i →
  (∃ x, l !! i = Some x ∧ p x = true) ∧
  ∀ j y, j < i → l !! j = Some y → p y = false.
Proof.
  revert i. induction l as [|x l IH]; intros i Hfind; simpl in Hfind.
  - discriminate.
  - destruct (p x) eqn:Hpx.
    + injection Hfind as <-. split; [by exists x | intros j y Hj; lia].
    + destruct (findIndex p l) as [k|] eqn:Hk; [|discriminate].
      injection Hfind as <-. destruct (IH k eq_refl) as [Hhit Hbefore].
      split; [exact Hhit|].
      intros [|j] y Hj Hy; simpl in Hy.
      * by injection Hy as <-.
      * apply (Hbefore j); [lia | done].
Qed.

Lemma findIndex_None (l : list A) :
  findIndex p l = None ↔ ∀ x, x ∈ l → p x = false.
Proof.
  induction l as [|x l IH]; simpl.
  - split; [intros _ x Hx; by apply elem_of_nil in Hx | done].
  - destruct (p x) eqn:Hpx.
    + split; [done|]. intros Hall.
      rewrite (Hall x) in Hpx; [done | by left].
    + destruct (findIndex p l) as [k|]; simpl.
      * split; [done|]. intros Hall.
        assert (Some k = None) as Hk; [|done].
        apply IH. intros y Hy. apply Hall. by right.
      * split; [|done]. intros _ y Hy.
        apply elem_of_cons in Hy as [->|Hy]; [done|].
        by apply IH.
Qed.
End findIndex_facts.

Lemma strict_eq_true (a b : prim) : strict_eq a b = true ↔ a = b.
Proof. unfold strict_eq. by rewrite bool_decide_eq_true. Qed.

Lemma strict_eq_false (a b : prim) : strict_eq a b = false ↔ a ≠ b.
Proof. unfold strict_eq. by rewrite bool_decide_eq_false. Qed.

(** What [findIndex] finds for an id is the first match. *)
Lemma findIndex_first_match (id : prim) (l : list Expense) (i : nat) :
  findIndex (λ e, strict_eq (e_id e) id) l = Some i → first_match id l i.
Proof.
  intros Hfind. apply findIndex_Some in Hfind as [(e & He & Hid) Hbefore].
  split.
  - exists e. split; [done|]. by apply strict_eq_true.
  - intros j e' Hj He'. apply strict_eq_false. by apply (Hbefore j).
Qed.

Lemma findIndex_no_match (id : prim) (l : list Expense) :
  findIndex (λ e, strict_eq (e_id e) id) l = None ↔ ∀ e, e ∈ l → e_id e ≠ id.
Proof.
  rewrite findIndex_None. split; intros Hall e He.
  - apply strict_eq_false. by apply Hall.
  - apply strict_eq_false. by apply Hall.
Qed.

Lemma spread_merged (e : Expense) (updates : Updates) :
  merged e updates (spread e updates).
Proof.
  unfold merged, merged_field, spread; simpl.
  by destruct (u_id updates), (u_amount updates), (u_category updates),
    (u_note updates), (u_date updates).
Qed.

Lemma alter_as_insert {A : Type} (f : A → A) (l : list A) (i : nat) (x : A) :
  l !! i = Some x → alter f i l = <[i := f x]> l.
Proof.
  intros Hx. apply list_eq. intros j.
  destruct (decide (i = j)) as [<-|Hne].
  - rewrite list_lookup_alter_eq, Hx. simpl.
    symmetry. apply list_lookup_insert_eq. by eapply lookup_lt_Some.
  - by rewrite list_lookup_alter_ne, list_lookup_insert_ne.
Qed.

(** ** The last transaction and the newest element *)

Lemma setExpensesForRequest_synced (clientExpenses : list Expense) (s : Store) :
  synced (setExpensesForRequest clientExpenses s).
Proof. unfold synced. by destruct clientExpenses. Qed.

Lemma addExpense_synced (expense : Expense) (s : Store) :
  synced (addExpense expense s).
Proof. done. Qed.

Lemma clearExpenses_synced (s : Store) : synced (clearExpenses s).
Proof. done. Qed.

Lemma updateExpenseById_synced (id : prim) (updates : Updates) (s : Store) :
  synced s → synced (updateExpenseById id updates s).2.
Proof.
  destruct s as [l b last]. unfold synced, updateExpenseById; simpl.
  destruct l as [|newest rest]; simpl; [done|].
  intros ->. destruct (strict_eq (e_id newest) id) eqn:Hid; simpl.
  - done.
  - by destruct (findIndex _ rest) as [k|].
Qed.

Lemma apply_op_synced (op : StoreOp) (s : Store) :
  syncing_op op → synced s → synced (apply_op op s).
Proof.
  destruct op; simpl; intros Hop Hs; try done.
  - apply setExpensesForRequest_synced.
  - by apply updateExpenseById_synced.
Qed.

(** C1, as the specification words it, fails: [deleteExpense] leaves the
    last transaction alone, so deleting the only expense gives an empty list
    with a last transaction that is not [null]. *)
Lemma stale_last_transaction_reachable :
  reachable_by any_op (deleteExpense (JStr "1") (addExpense latte initialStore)) ∧
  expenses (deleteExpense (JStr "1") (addExpense latte initialStore)) = [] ∧
  lastTransaction (deleteExpense (JStr "1") (addExpense latte initialStore)) = Some latte ∧
  ¬ synced (deleteExpense (JStr "1") (addExpense latte initialStore)).
Proof.
  split; [|split; [|split]].
  - apply (reach_step any_op (OpDeleteExpense (JStr "1"))); [done|].
    apply (reach_step any_op (OpAddExpense latte)); [done|].
    apply reach_initial.
  - reflexivity.
  - reflexivity.
  - unfold synced. simpl. discriminate.
Qed.

(** C1 (amended): in every state of the store reachable from its initial
    values by [setExpensesForRequest], [addExpense], [updateExpenseById] and
    [clearExpenses], the last transaction is the first element of the
    expense list when the list is non-empty, and [null] when it is empty. *)
Theorem newest_is_last_transaction (s : Store) :
  reachable_by syncing_op s → synced s.
Proof.
  induction 1 as [|op s Hop _ IH].
  - done.
  - by apply apply_op_synced.
Qed.

Lemma newest_is_last_transaction_witness :
  reachable_by syncing_op
    (apply_op (OpUpdateExpenseById (JStr "2")
                 {| u_id := None; u_amount := Some (JNum 45); u_category := None;
                    u_note := None; u_date := None |})
       (apply_op (OpAddExpense latte)
          (apply_op (OpAddExpense bus) initialStore))) ∧
  synced
    (apply_op (OpUpdateExpenseById (JStr "2")
                 {| u_id := None; u_amount := Some (JNum 45); u_category := None;
                    u_note := None; u_date := None |})
       (apply_op (OpAddExpense latte)
          (apply_op (OpAddExpense bus) initialStore))).
Proof.
  assert (reachable_by syncing_op
    (apply_op (OpUpdateExpenseById (JStr "2")
                 {| u_id := None; u_amount := Some (JNum 45); u_category := None;
                    u_note := None; u_date := None |})
       (apply_op (OpAddExpense latte)
          (apply_op (OpAddExpense bus) initialStore)))) as Hreach.
  { apply reach_step; [exact I|].
    apply reach_step; [exact I|].
    apply reach_step; [exact I|].
    apply reach_initial. }
  split; [exact Hreach|].
  apply newest_is_last_transaction. exact Hreach.
Defined.

(** ** updateExpenseById *)

Lemma updateExpenseById_found (id : prim) (updates : Updates) (s : Store) (i : nat) :
  findIndex (λ e, strict_eq (e_id e) id) (expenses s) = Some i →
  (updateExpenseById id updates s).1 = true ∧
  expenses (updateExpenseById id updates s).2
  = alter (λ e, spread e updates) i (expenses s) ∧
  budget (updateExpenseById id updates s).2 = budget s.
Proof. unfold updateExpenseById. by intros ->. Qed.

Lemma updateExpenseById_not_found (id : prim) (updates : Updates) (s : Store) :
  findIndex (λ e, strict_eq (e_id e) id) (expenses s) = None →
  updateExpenseById id updates s = (false, s).
Proof. unfold updateExpenseById. by intros ->. Qed.

(** C6: when some element of the list has the given id,
    [updateExpenseById] returns [true] and replaces the element at the first
    position whose id matches by that element with the supplied fields
    merged in; every other position, a later element with the same id
    included, keeps its element. *)
Theorem updateExpenseById_updates_first_match
    (id : prim) (updates : Updates) (s : Store) :
  (∃ e, e ∈ expenses s ∧ e_id e = id) →
  ∃ i e e',
    first_match id (expenses s) i ∧
    expenses s !! i = Some e ∧
    merged e updates e' ∧
    (updateExpenseById id updates s).1 = true ∧
    expenses (updateExpenseById id updates s).2 = <[i := e']> (expenses s) ∧
    expenses (updateExpenseById id updates s).2 !! i = Some e' ∧
    ∀ j, j ≠ i →
      expenses (updateExpenseById id updates s).2 !! j = expenses s !! j.
Proof.
  intros (e0 & He0 & Hid0).
  destruct (findIndex (λ e, strict_eq (e_id e) id) (expenses s)) as [i|] eqn:Hfind.
  - pose proof (findIndex_first_match _ _ _ Hfind) as Hfirst.
    destruct Hfirst as [(e & He & Hid) Hbefore].
    destruct (updateExpenseById_found id updates s i Hfind) as (Hret & Hl & _).
    exists i, e, (spread e updates).
    rewrite Hret, Hl, (alter_as_insert _ _ _ _ He).
    split; [split; [by exists e | done] |].
    split; [done|]. split; [apply spread_merged|]. split; [done|].
    split; [done|]. split.
    + apply list_lookup_insert_eq. by eapply lookup_lt_Some.
    + intros j Hj. by apply list_lookup_insert_ne.
  - exfalso. by apply (proj1 (findIndex_no_match _ _) Hfind e0).
Qed.

Lemma updateExpenseById_updates_first_match_witness :
  (∃ e, e ∈ expenses (mkStore [latte; bus; latte] ∅ (Some latte)) ∧ e_id e = JStr "1") ∧
  ∃ i e e',
    first_match (JStr "1") [latte; bus; latte] i ∧
    [latte; bus; latte] !! i = Some e ∧
    merged e (mkUpdates None (Some (JNum 150)) None None None) e' ∧
    (updateExpenseById (JStr "1") (mkUpdates None (Some (JNum 150)) None None None)
       (mkStore [latte; bus; latte] ∅ (Some latte))).1 = true ∧
    expenses (updateExpenseById (JStr "1") (mkUpdates None (Some (JNum 150)) None None None)
       (mkStore [latte; bus; latte] ∅ (Some latte))).2 = <[i := e']> [latte; bus; latte] ∧
    expenses (updateExpenseById (JStr "1") (mkUpdates None (Some (JNum 150)) None None None)
       (mkStore [latte; bus; latte] ∅ (Some latte))).2 !! i = Some e' ∧
    ∀ j, j ≠ i →
      expenses (updateExpenseById (JStr "1") (mkUpdates None (Some (JNum 150)) None None None)
         (mkStore [latte; bus; latte] ∅ (Some latte))).2 !! j = [latte; bus; latte] !! j.
Proof.
  assert (∃ e, e ∈ expenses (mkStore [latte; bus; latte] ∅ (Some latte))
               ∧ e_id e = JStr "1") as Hex.
  { exists latte. split; [simpl; left | reflexivity]. }
  split; [exact Hex|].
  exact (updateExpenseById_updates_first_match (JStr "1")
           (mkUpdates None (Some (JNum 150)) None None None)
           (mkStore [latte; bus; latte] ∅ (Some latte)) Hex).
Defined.

(** With two elements of the same id, only the first one is changed. *)
Example updateExpenseById_duplicate_ids :
  updateExpenseById (JStr "1") (mkUpdates None (Some (JNum 150)) None None None)
    (mkStore [bus; latte; latte] ∅ (Some bus))
  = (true,
     mkStore [bus; mkExpense (JStr "1") (JNum 150) (JStr "Coffee") (JStr "latte")
                     (JStr "05-03-2024"); latte] ∅ (Some bus)).
Proof. reflexivity. Qed.

(** C9, as the specification words it, fails: the one caller of
    [updateExpenseById], the entries route, hands it the model's untyped
    [data], and an [id] in it replaces the id of the expense. *)
Lemma model_id_replaces_expense_id :
  e_id <$> [latte; bus] = [JStr "1"; JStr "2"] ∧
  e_id <$> expenses (updateExpenseById (JStr "1") (as_updates (m_data renumber))
                       (mkStore [latte; bus] ∅ (Some latte))).2
  = [JStr "9"; JStr "2"] ∧
  match POST (worldWith (ParsedValue renumber))
          {| body_message := JStr "oops, make it 250";
             body_expenses := Some [latte; bus]; body_budget := None |}
          initialStore with
  | (Returned resp, s') => e_id <$> expenses s' = [JStr "9"; JStr "2"]
  | (Thrown _, _) => False
  end.
Proof. vm_compute. by repeat split. Qed.

(** C9 (amended): every call of [updateExpenseById] leaves the length and
    the order of the list as they were and changes no element except at the
    first position whose id matches; when no element has the given id it
    returns [false] and the store is unchanged.  The id of every expense is
    unchanged when the update fields do not include [id], as their declared
    type says; an [id] among them (the entries route passes the model's
    untyped data) becomes the id of the first match, and of no other
    element. *)
Theorem updateExpenseById_frame (id : prim) (updates : Updates) (s : Store) :
  length (expenses (updateExpenseById id updates s).2) = length (expenses s) ∧
  (∀ j e, expenses s !! j = Some e →
          expenses (updateExpenseById id updates s).2 !! j ≠ Some e →
          first_match id (expenses s) j) ∧
  budget (updateExpenseById id updates s).2 = budget s ∧
  ((∀ e, e ∈ expenses s → e_id e ≠ id) →
   updateExpenseById id updates s = (false, s)) ∧
  (typed_updates updates →
   e_id <$> expenses (updateExpenseById id updates s).2 = e_id <$> expenses s) ∧
  (∀ j e e', expenses s !! j = Some e →
             expenses (updateExpenseById id updates s).2 !! j = Some e' →
             e_id e' = e_id e
             ∨ (first_match id (expenses s) j ∧ u_id updates = Some (e_id e'))).
Proof.
  destruct (findIndex (λ e, strict_eq (e_id e) id) (expenses s)) as [i|] eqn:Hfind.
  - destruct (updateExpenseById_found id updates s i Hfind) as (_ & -> & ->).
    pose proof (findIndex_first_match _ _ _ Hfind) as Hfirst.
    split; [|split; [|split; [|split; [|split]]]].
    + apply length_alter.
    + intros j e He Hchanged. destruct (decide (i = j)) as [<-|Hne]; [done|].
      rewrite list_lookup_alter_ne in Hchanged; done.
    + done.
    + intros Hnone. apply (proj2 (findIndex_no_match _ _)) in Hnone. congruence.
    + intros Htyped. apply list_eq. intros j. rewrite !list_lookup_fmap.
      destruct (decide (i = j)) as [<-|Hne].
      * rewrite list_lookup_alter_eq.
        destruct (expenses s !! i) as [e|]; simpl; [|done].
        unfold spread; simpl. by rewrite Htyped.
      * by rewrite list_lookup_alter_ne.
    + intros j e e' He He'. destruct (decide (i = j)) as [<-|Hne].
      * rewrite list_lookup_alter_eq, He in He'. injection He' as <-.
        unfold spread; simpl. destruct (u_id updates) as [new|]; simpl.
        -- right. by split.
        -- by left.
      * rewrite list_lookup_alter_ne in He' by done. left. congruence.
  - rewrite (updateExpenseById_not_found _ _ _ Hfind); simpl.
    split; [done|]. split; [by intros j e He Hchanged|]. split; [done|].
    split; [done|]. split; [done|].
    intros j e e' He He'. left. congruence.
Qed.

Lemma updateExpenseById_frame_witness :
  typed_updates (mkUpdates None None (Some (JStr "Food")) None None) ∧
  e_id <$> expenses (updateExpenseById (JStr "2")
                       (mkUpdates None None (Some (JStr "Food")) None None)
                       (mkStore [latte; bus] ∅ (Some latte))).2
  = [JStr "1"; JStr "2"].
Proof.
  split; [reflexivity|].
  exact (proj1 (proj2 (proj2 (proj2 (proj2
           (updateExpenseById_frame (JStr "2")
              (mkUpdates None None (Some (JStr "Food")) None None)
              (mkStore [latte; bus] ∅ (Some latte))))))) eq_refl).
Defined.

(** The entries route hands the model's untyped [data] to
    [updateExpenseById]; an [id] in it, which the declared type of
    [updates] rules out, would replace the id of the expense. *)
Example untyped_update_replaces_id :
  updateExpenseById (JStr "1") (mkUpdates (Some (JStr "9")) None None None None)
    (mkStore [latte; bus] ∅ (Some latte))
  = (true,
     mkStore [mkExpense (JStr "9") (JNum 120) (JStr "Coffee") (JStr "latte")
                (JStr "05-03-2024"); bus] ∅
       (Some (mkExpense (JStr "9") (JNum 120) (JStr "Coffee") (JStr "latte")
                (JStr "05-03-2024")))).
Proof. reflexivity. Qed.

(** ** deleteExpense *)

Lemma count_occ_filter_keep {A : Type} (eq_dec : EqDecision A) (P : A → Prop)
    `{∀ x, Decision (P x)} (l : list A) (x : A) :
  P x → count_occ eq_dec (filter P l) x = count_occ eq_dec l x.
Proof.
  intros HP. induction l as [|y l IH]; [done|].
  rewrite filter_cons. destruct (decide (P y)) as [HPy|HPy]; simpl.
  - by rewrite IH.
  - destruct (eq_dec y x) as [->|]; [done | exact IH].
Qed.

(** C8: [deleteExpense] removes exactly the elements whose id is the given
    one (none of them remains, every other element stays as often as it
    occurred), keeps the remaining elements in their order, and leaves the
    last transaction (and the budget) as they were; so after the most recent
    expense is deleted, [getLastTransaction] still returns it. *)
Theorem deleteExpense_frame (id : prim) (s : Store) :
  expenses (deleteExpense id s) `sublist_of` expenses s ∧
  (∀ e, e ∈ expenses (deleteExpense id s) ↔ e ∈ expenses s ∧ e_id e ≠ id) ∧
  (∀ e, e_id e ≠ id →
        count_occ Expense_eq_dec (expenses (deleteExpense id s)) e
        = count_occ Expense_eq_dec (expenses s) e) ∧
  lastTransaction (deleteExpense id s) = lastTransaction s ∧
  budget (deleteExpense id s) = budget s ∧
  (∀ newest,
     getLastTransaction (deleteExpense (e_id newest) (addExpense newest s))
     = Some newest ∧
     newest ∉ getExpenses (deleteExpense (e_id newest) (addExpense newest s))).
Proof.
  split; [|split; [|split; [|split; [|split]]]]; simpl.
  - apply sublist_filter.
  - intros e. rewrite list_elem_of_filter. tauto.
  - intros e He. by apply (count_occ_filter_keep _ (λ e, e_id e ≠ id)).
  - done.
  - done.
  - intros newest. split; [done|].
    unfold getExpenses; simpl. rewrite list_elem_of_filter. tauto.
Qed.

Example deleteExpense_keeps_last_transaction :
  deleteExpense (JStr "1") (mkStore [latte; bus; latte] ∅ (Some latte))
  = mkStore [bus] ∅ (Some latte).
Proof. reflexivity. Qed.

(** ** The entries handler, step by step *)

Lemma hydrate_returns (req : Request) (s : Store) :
  hydrate req s = (Returned (), hydrated req s).
Proof. unfold hydrated, hydrate. by destruct (body_expenses req). Qed.

Lemma hydrated_budget (req : Request) (s : Store) :
  budget (hydrated req s) = budget s.
Proof. unfold hydrated, hydrate. by destruct (body_expenses req). Qed.

(** [POST] is [respond], on the hydrated store, to what the model answers
    to the context built from the hydrated store. *)
Lemma POST_respond (w : World) (req : Request) (s : Store) :
  POST w req s = respond w (answer w req s) (hydrated req s).
Proof.
  unfold POST, answer, mbind, Handler_bind. by rewrite hydrate_returns.
Qed.

Lemma proceeds_true (parsed : ModelReply) :
  proceeds parsed = true →
  truthy (m_intent parsed) = true ∧
  strict_eq (m_execution_status parsed) (JStr "ERROR") = false ∧
  strict_eq (m_execution_status parsed) (JStr "CLARIFICATION_NEEDED") = false.
Proof.
  unfold proceeds. rewrite !andb_true_iff, !negb_true_iff. tauto.
Qed.

Lemma respond_log_expense (w : World) (parsed : ModelReply) :
  proceeds parsed = true → m_intent parsed = JStr "log_expense" →
  respond w (Some parsed) = logExpenseCase w parsed.
Proof.
  intros (Hi & He & Hc)%proceeds_true Hintent. unfold respond.
  by rewrite Hi, He, Hc, Hintent.
Qed.

Lemma respond_update_last_expense (w : World) (parsed : ModelReply) :
  proceeds parsed = true → m_intent parsed = JStr "update_last_expense" →
  respond w (Some parsed) = updateLastExpenseCase parsed.
Proof.
  intros (Hi & He & Hc)%proceeds_true Hintent. unfold respond.
  by rewrite Hi, He, Hc, Hintent.
Qed.

Lemma respond_get_summary (w : World) (parsed : ModelReply) :
  proceeds parsed = true → m_intent parsed = JStr "get_summary" →
  respond w (Some parsed) = getSummaryCase parsed.
Proof.
  intros (Hi & He & Hc)%proceeds_true Hintent. unfold respond.
  by rewrite Hi, He, Hc, Hintent.
Qed.

Lemma respond_set_budget (w : World) (parsed : ModelReply) :
  proceeds parsed = true → m_intent parsed = JStr "set_budget" →
  respond w (Some parsed) = setBudgetCase parsed.
Proof.
  intros (Hi & He & Hc)%proceeds_true Hintent. unfold respond.
  by rewrite Hi, He, Hc, Hintent.
Qed.

(** ** Hydration *)

(** C2, as the specification words it, fails for the budget: the handler
    reads only [message] and [expenses] from the body, so a request that
    carries a budget leaves the store's budget as it was. *)
Lemma client_budget_is_not_stored :
  body_budget requestWithBudget = Some clientBudget ∧
  budget (hydrated requestWithBudget initialStore) = budget initialStore ∧
  budget (hydrated requestWithBudget initialStore) ≠ clientBudget ∧
  budget (POST (worldWith FetchRejected) requestWithBudget initialStore).2
  ≠ clientBudget.
Proof.
  split; [reflexivity|]. split; [reflexivity|]. split.
  - intros Heq. apply (f_equal (λ m : BudgetMap, m !! "Food")) in Heq.
    vm_compute in Heq. discriminate.
  - intros Heq. apply (f_equal (λ m : BudgetMap, m !! "Food")) in Heq.
    vm_compute in Heq. discriminate.
Qed.

(** C2 (amended): for every POST request to the entries endpoint whose body
    carries an expense array, the store's expense list is replaced by that
    array (and the last transaction by its first element, or [null]) before
    the request is processed: the model is asked about, and the answer is
    carried out on, the store so replaced.  The budget is not taken from the
    request, and a body without an expense array leaves the store as it
    was. *)
Theorem hydration_replaces_expenses (w : World) (req : Request) (s : Store) :
  hydrated req s
  = match body_expenses req with
    | Some clientExpenses =>
        {| expenses := clientExpenses; budget := budget s;
           lastTransaction := head clientExpenses |}
    | None => s
    end ∧
  POST w req s
  = respond w (callAdvancedOllama w (body_message req) (contextOf (hydrated req s)))
      (hydrated req s) ∧
  getBudget (hydrated req s) = getBudget s.
Proof.
  split; [|split].
  - unfold hydrated, hydrate. destruct (body_expenses req) as [l|]; [|done].
    by destruct l.
  - apply POST_respond.
  - apply hydrated_budget.
Qed.

Example hydration_sample :
  hydrated requestWithBudget (mkStore [bus] ∅ (Some bus))
  = mkStore [latte] ∅ (Some latte).
Proof. reflexivity. Qed.

(** ** The fallback message *)



(** The same message for the other kinds of failure. *)
Example fallback_when_unreachable :
  (POST (worldWith FetchRejected) (say "hi") initialStore).1
  = Returned (replyOnly entriesFallback).
Proof. reflexivity. Qed.

Example fallback_when_intent_missing :
  (POST (worldWith (ParsedValue (mkModelReply JUndefined (JStr "SUCCESS") None
                                   (JStr "Hello!"))))
     (say "hi") initialStore).1
  = Returned (replyOnly entriesFallback).
Proof. reflexivity. Qed.

(** ** Dates *)

Lemma forall_below (P : N → bool) (bound : N) :
  forallb (λ k, P (N.of_nat k)) (seq 0 (N.to_nat bound)) = true →
  ∀ n, (n < bound)%N → P n = true.
Proof.
  intros Hall n Hn. rewrite forallb_forall in Hall.
  rewrite <- (N2Nat.id n). apply Hall. apply in_seq. lia.
Qed.

Lemma addLeadingZeros_two_digits (n : N) :
  (n < 100)%N → two_digits (addLeadingZeros n 2) = true.
Proof.
  apply (forall_below (λ n, two_digits (addLeadingZeros n 2)) 100).
  vm_compute. reflexivity.
Qed.

Lemma addLeadingZeros_four_digits (n : N) :
  (n < 10000)%N → four_digits (addLeadingZeros n 4) = true.
Proof.
  apply (forall_below (λ n, four_digits (addLeadingZeros n 4)) 10000).
  vm_compute. reflexivity.
Qed.

Lemma is_ddMMyyyy_parts (dd mm yyyy : string) :
  two_digits dd = true → two_digits mm = true → four_digits yyyy = true →
  is_ddMMyyyy (JStr (dd ++ "-" ++ mm ++ "-" ++ yyyy)) = true.
Proof.
  destruct dd as [|d1 [|d2 [|]]]; try discriminate.
  destruct mm as [|m1 [|m2 [|]]]; try discriminate.
  destruct yyyy as [|y1 [|y2 [|y3 [|y4 [|]]]]]; try discriminate.
  simpl. intros (-> & ->)%andb_true_iff (-> & ->)%andb_true_iff.
  by intros (((-> & ->)%andb_true_iff & ->)%andb_true_iff & ->)%andb_true_iff.
Qed.

(** Today's date, formatted, has the shape [dd-MM-yyyy]. *)
Lemma format_ddMMyyyy_shape (c : Clock) :
  valid_date c → is_ddMMyyyy (JStr (format_ddMMyyyy c)) = true.
Proof.
  intros (Hday & Hmonth & Hyear). unfold format_ddMMyyyy.
  apply is_ddMMyyyy_parts.
  - apply addLeadingZeros_two_digits. lia.
  - apply addLeadingZeros_two_digits. lia.
  - apply addLeadingZeros_four_digits. lia.
Qed.

Example format_ddMMyyyy_sample : format_ddMMyyyy sampleClock = "05-03-2024".
Proof. reflexivity. Qed.

(** C7, as the specification words it, fails: the date the model supplies
    is stored as it comes, whatever its format. *)
Lemma log_expense_keeps_model_date :
  match POST (worldWith (ParsedValue isoDated)) (say "latte 120") initialStore with
  | (Returned resp, s') =>
      e_date <$> expenses s' = [JStr "2024-03-05"] ∧
      fmap (M := list) e_date <$> updatedExpenses resp = Some [JStr "2024-03-05"] ∧
      is_ddMMyyyy (JStr "2024-03-05") = false
  | (Thrown _, _) => False
  end.
Proof. vm_compute. by repeat split. Qed.

(** C7 (amended): an expense created via the [log_expense] intent carries
    the date the model supplied, unchanged, when the model's data has a
    non-empty date; when the model supplies no date, the new expense's date
    is today's date formatted [dd-MM-yyyy]. *)
Theorem log_expense_date
    (w : World) (req : Request) (s : Store) (parsed : ModelReply) (d : ModelData) :
  valid_date (clock w) →
  answer w req s = Some parsed →
  proceeds parsed = true →
  m_intent parsed = JStr "log_expense" →
  m_data parsed = Some d →
  ∃ resp newExpense,
    POST w req s = (Returned resp, addExpense newExpense (hydrated req s)) ∧
    updatedExpenses resp = Some (newExpense :: expenses (hydrated req s)) ∧
    (truthy (prop (d_date d)) = true → e_date newExpense = prop (d_date d)) ∧
    (truthy (prop (d_date d)) = false →
     e_date newExpense = JStr (format_ddMMyyyy (clock w)) ∧
     is_ddMMyyyy (e_date newExpense) = true).
Proof.
  intros Hclock Hanswer Hproceeds Hintent Hdata.
  rewrite POST_respond, Hanswer, (respond_log_expense _ _ Hproceeds Hintent).
  unfold logExpenseCase. rewrite Hdata.
  eexists _, _. split; [reflexivity|]. split; [reflexivity|]. simpl.
  unfold js_or. split; intros ->; [done|].
  split; [done|]. by apply format_ddMMyyyy_shape.
Qed.

Lemma log_expense_date_witness :
  valid_date (clock (worldWith (ParsedValue undated))) ∧
  ∃ resp newExpense,
    POST (worldWith (ParsedValue undated)) (say "latte 120") initialStore
    = (Returned resp, addExpense newExpense initialStore) ∧
    e_date newExpense = JStr "05-03-2024".
Proof.
  assert (valid_date (clock (worldWith (ParsedValue undated)))) as Hclock.
  { unfold valid_date; simpl. lia. }
  split; [exact Hclock|].
  destruct (log_expense_date (worldWith (ParsedValue undated)) (say "latte 120")
              initialStore undated
              {| d_id := None; d_amount := Some (JNum 120);
                 d_category := Some (JStr "Coffee");
                 d_note := Some (JStr "latte");
                 d_date := None; d_result := None |}
              Hclock eq_refl eq_refl eq_refl eq_refl)
    as (resp & newExpense & HPOST & _ & _ & Hdate).
  exists resp, newExpense. split; [exact HPOST|].
  exact (proj1 (Hdate eq_refl)).
Defined.

(** ** set_budget *)

Lemma classic_readable (category : prim) :
  readable_category category ∨ ¬ readable_category category.
Proof.
  unfold readable_category.
  destruct category as [| |[]|n|c]; simpl.
  - by left; right.
  - by left; right.
  - right. intros [[c [=]]|[=]].
  - by left; right.
  - destruct (negb (n =? 0)%Z) eqn:Hn.
    + right. intros [[c [=]]|[=]].
    + by left; right.
  - left; left. by exists c.
Qed.

Lemma lower_ascii_same_letter (x y : ascii) :
  Ascii.eqb (lower_ascii x) (lower_ascii y) = same_letter x y.
Proof.
  assert (forallb (λ a, forallb (λ b,
            Bool.eqb (Ascii.eqb (lower_ascii (ascii_of_nat a))
                        (lower_ascii (ascii_of_nat b)))
              (same_letter (ascii_of_nat a) (ascii_of_nat b)))
            (seq 0 256)) (seq 0 256) = true) as Hall
    by (vm_compute; reflexivity).
  rewrite forallb_forall in Hall.
  pose proof (Hall (nat_of_ascii x)) as Hx. rewrite forallb_forall in Hx.
  pose proof (Hx (proj2 (in_seq _ _ _) (conj (Nat.le_0_l _) (nat_ascii_bounded x)))
                 (nat_of_ascii y)
                 (proj2 (in_seq _ _ _) (conj (Nat.le_0_l _) (nat_ascii_bounded y))))
    as Hxy.
  rewrite !ascii_nat_embedding in Hxy. by apply Bool.eqb_prop in Hxy.
Qed.

(** Lowering both strings and comparing them is the case-insensitive
    comparison. *)
Lemma toLowerCase_equal_ignoring_case (a b : string) :
  String.eqb (toLowerCase a) (toLowerCase b) = equal_ignoring_case a b.
Proof.
  revert b. induction a as [|x a IH]; intros [|y b]; simpl; try done.
  rewrite <- lower_ascii_same_letter, <- IH.
  by destruct (Ascii.eqb (lower_ascii x) (lower_ascii y)).
Qed.

Lemma setBudgetCase_returns (parsed : ModelReply) (d : ModelData) (s : Store) :
  m_data parsed = Some d →
  readable_category (prop (d_category d)) →
  setBudgetCase parsed s
  = (Returned {| reply := m_reply parsed; updatedExpenses := None;
                 updatedBudget :=
                   Some (assign (namedEntry (prop (d_category d)))
                           (prop (d_amount d)) (budget s));
                 summaryData := None; data := None |},
     setBudget (assign (namedEntry (prop (d_category d))) (prop (d_amount d))
                  (budget s)) s).
Proof.
  intros Hdata Hreadable. unfold setBudgetCase. rewrite Hdata.
  unfold mbind, Handler_bind, read, write, getBudget; simpl.
  destruct Hreadable as [[c Hc]|Hfalsy].
  - rewrite Hc. simpl.
    change "total" with (toLowerCase "total") at 1.
    rewrite toLowerCase_equal_ignoring_case.
    destruct (String.eqb c EmptyString) eqn:Hempty; simpl; [done|].
    by destruct (equal_ignoring_case c "total").
  - destruct (prop (d_category d)) as [| |b|n|c]; simpl in *;
      rewrite ?Hfalsy; simpl; try done.
    apply negb_false_iff in Hfalsy. by rewrite Hfalsy.
Qed.

Lemma assign_lookup_eq (key : string) (value : prim) (o : BudgetMap) :
  key ≠ "__proto__" → assign key value o !! key = Some value.
Proof.
  intros Hkey. unfold assign.
  destruct (String.eqb key "__proto__") eqn:Heq.
  - by apply String.eqb_eq in Heq.
  - apply lookup_insert_eq.
Qed.

Lemma assign_lookup_ne (key entry : string) (value : prim) (o : BudgetMap) :
  entry ≠ key → assign key value o !! entry = o !! entry.
Proof.
  intros Hne. unfold assign. destruct (String.eqb key "__proto__"); [done|].
  by apply lookup_insert_ne.
Qed.

Lemma assign_proto (value : prim) (o : BudgetMap) : assign "__proto__" value o = o.
Proof. done. Qed.

(** C10, as the specification words it, fails: a request that sets a limit
    to the amount it already has leaves no entry different, and a request
    that names the category ["__proto__"] stores nothing. *)
Lemma set_budget_may_change_no_entry :
  match POST (worldWith (ParsedValue (budgetFor (Some (JStr "total")) 50000)))
          (say "set my total budget to 50000") initialStore with
  | (Returned resp, s') =>
      budget initialStore !! "total" = Some (JNum 50000) ∧
      budget s' = budget initialStore
  | (Thrown _, _) => False
  end ∧
  match POST (worldWith (ParsedValue (budgetFor (Some (JStr "__proto__")) 100)))
          (say "set my __proto__ budget to 100") initialStore with
  | (Returned resp, s') =>
      budget s' = budget initialStore ∧ budget s' !! "__proto__" = None
  | (Thrown _, _) => False
  end.
Proof. vm_compute. by repeat split. Qed.

(** C10 (amended): a [set_budget] request whose data gives a category that
    is a string or is missing changes at most one entry of the budget map:
    the entry of the named category when a category other than "total"
    (compared case-insensitively) is given, and the entry ["total"]
    otherwise, is set to the amount (which may be the amount it had); for
    the category ["__proto__"] nothing is stored.  Every other entry of the
    budget map is unchanged, and so are the expenses. *)
Theorem set_budget_sets_named_entry
    (w : World) (req : Request) (s : Store) (parsed : ModelReply) (d : ModelData) :
  answer w req s = Some parsed →
  proceeds parsed = true →
  m_intent parsed = JStr "set_budget" →
  m_data parsed = Some d →
  readable_category (prop (d_category d)) →
  ∃ resp s',
    POST w req s = (Returned resp, s') ∧
    (namedEntry (prop (d_category d)) ≠ "__proto__" →
     budget s' !! namedEntry (prop (d_category d)) = Some (prop (d_amount d))) ∧
    (namedEntry (prop (d_category d)) = "__proto__" → budget s' = budget s) ∧
    (∀ entry, entry ≠ namedEntry (prop (d_category d)) →
              budget s' !! entry = budget s !! entry) ∧
    updatedBudget resp = Some (budget s') ∧
    expenses s' = expenses (hydrated req s) ∧
    lastTransaction s' = lastTransaction (hydrated req s).
Proof.
  intros Hanswer Hproceeds Hintent Hdata Hreadable.
  rewrite POST_respond, Hanswer, (respond_set_budget _ _ Hproceeds Hintent).
  rewrite (setBudgetCase_returns _ _ _ Hdata Hreadable).
  eexists _, _. split; [reflexivity|]. simpl. rewrite hydrated_budget.
  split; [apply assign_lookup_eq|]. split; [by intros ->|].
  split; [|done]. intros entry Hentry. by apply assign_lookup_ne.
Qed.

Lemma set_budget_sets_named_entry_witness :
  readable_category (JStr "TOTAL") ∧
  ∃ resp s',
    POST (worldWith (ParsedValue (budgetFor (Some (JStr "TOTAL")) 60000)))
      (say "set my TOTAL budget to 60000") initialStore = (Returned resp, s') ∧
    budget s' !! "total" = Some (JNum 60000) ∧
    budget s' !! "TOTAL" = None ∧
    budget s' !! "Entertainment" = Some (JNum 5000).
Proof.
  assert (readable_category (JStr "TOTAL")) as Hreadable.
  { left. exists "TOTAL". reflexivity. }
  split; [exact Hreadable|].
  destruct (set_budget_sets_named_entry
              (worldWith (ParsedValue (budgetFor (Some (JStr "TOTAL")) 60000)))
              (say "set my TOTAL budget to 60000") initialStore
              (budgetFor (Some (JStr "TOTAL")) 60000)
              {| d_id := None; d_amount := Some (JNum 60000);
                 d_category := Some (JStr "TOTAL"); d_note := None;
                 d_date := None; d_result := None |}
              eq_refl eq_refl eq_refl eq_refl Hreadable)
    as (resp & s' & HPOST & Hnamed & _ & Hothers & _).
  exists resp, s'. split; [exact HPOST|]. split.
  - apply Hnamed. discriminate.
  - split.
    + rewrite (Hothers "TOTAL"); [reflexivity | discriminate].
    + rewrite (Hothers "Entertainment"); [reflexivity | discriminate].
Defined.

(** "Total", in any letter case, and a missing category name the overall
    limit. *)
Example set_budget_total_any_case :
  namedEntry (JStr "TOTAL") = "total" ∧ namedEntry (JStr "Total") = "total" ∧
  namedEntry JUndefined = "total" ∧ namedEntry (JStr "Food") = "Food".
Proof. by repeat split. Qed.

(** ** Categories *)

Lemma CategoryKey_decide (v : prim) : CategoryKey v ↔ isCategoryKey v = true.
Proof.
  unfold CategoryKey, isCategoryKey. split.
  - intros (label & -> & Hlabel). by apply bool_decide_eq_true.
  - destruct v as [| | | |label]; try discriminate.
    intros Hlabel%bool_decide_eq_true. by exists label.
Qed.

Lemma keeps_valid_reply (resp : Response) :
  updatedExpenses resp = None → keeps_valid (mret resp).
Proof. intros Hnone s Hs. split; [done|]. intros ? l [= <-]. congruence. Qed.

Lemma keeps_valid_throw (error : string) : keeps_valid (throw error).
Proof. intros s Hs. split; [done|]. intros ? l [=]. Qed.

Lemma logExpenseCase_valid (w : World) (parsed : ModelReply) :
  (∀ d, m_data parsed = Some d → CategoryKey (prop (d_category d))) →
  keeps_valid (logExpenseCase w parsed).
Proof.
  intros Hmodel. unfold logExpenseCase.
  destruct (m_data parsed) as [d|]; [|apply keeps_valid_throw].
  intros s [Hl Hlast].
  assert (valid_categories
            (expenses (addExpense
               {| e_id := JStr (pretty (now_ms (clock w)));
                  e_amount := prop (d_amount d);
                  e_category := prop (d_category d);
                  e_note := prop (d_note d);
                  e_date := js_or (prop (d_date d))
                              (JStr (format_ddMMyyyy (clock w))) |} s)))
    as Hnew.
  { apply Forall_cons; split; [by apply Hmodel | exact Hl]. }
  split; [split|].
  - exact Hnew.
  - simpl. intros e [= <-]. by apply Hmodel.
  - simpl. intros resp l [= <-] [= <-]. exact Hnew.
Qed.

Lemma spread_category_valid (e : Expense) (updates : Updates) :
  CategoryKey (e_category e) →
  (∀ c, u_category updates = Some c → CategoryKey c) →
  CategoryKey (e_category (spread e updates)).
Proof.
  intros He Hu. unfold spread; simpl.
  destruct (u_category updates) as [c|]; simpl; [by apply Hu | done].
Qed.

Lemma updateLastExpenseCase_valid (parsed : ModelReply) :
  (∀ d c, m_data parsed = Some d → d_category d = Some c → CategoryKey c) →
  keeps_valid (updateLastExpenseCase parsed).
Proof.
  intros Hmodel s [Hl Hlast].
  assert (∀ c, u_category (as_updates (m_data parsed)) = Some c → CategoryKey c)
    as Hupdates.
  { destruct (m_data parsed) as [d|]; simpl; [|done]. intros c. by apply Hmodel. }
  unfold updateLastExpenseCase, mbind, Handler_bind, read, call, write; simpl.
  unfold getLastTransaction.
  destruct (lastTransaction s) as [lastTx|] eqn:Hlasteq; simpl.
  2:{ split; [split; [done | by rewrite Hlasteq]|]. intros ? ? [= <-]. done. }
  unfold updateExpenseById.
  destruct (findIndex _ (expenses s)) as [i|]; simpl.
  2:{ split; [split; [done | by rewrite Hlasteq]|]. intros ? ? [= <-]. done. }
  assert (valid_categories (alter (λ e, spread e (as_updates (m_data parsed))) i
                              (expenses s))) as Hnew.
  { apply Forall_alter; [exact Hl|]. intros e _ He.
    by apply spread_category_valid. }
  split; [split|]; simpl.
  - exact Hnew.
  - intros e [= <-]. apply spread_category_valid; [by apply Hlast | done].
  - intros resp l [= <-] [= <-]. exact Hnew.
Qed.

Lemma getSummaryCase_valid (parsed : ModelReply) :
  keeps_valid (getSummaryCase parsed).
Proof.
  unfold getSummaryCase.
  destruct (m_data parsed); [by apply keeps_valid_reply | apply keeps_valid_throw].
Qed.

Lemma setBudgetCase_valid (parsed : ModelReply) :
  keeps_valid (setBudgetCase parsed).
Proof.
  unfold setBudgetCase.
  destruct (m_data parsed) as [d|]; [|apply keeps_valid_throw].
  intros s Hs. unfold mbind, Handler_bind, read, write; simpl.
  destruct (prop (d_category d)) as [| |[]|n|c]; simpl;
    repeat match goal with |- context [if ?b then _ else _] => destruct b; simpl end;
    (split; [exact Hs | by intros ? ? [= <-]]).
Qed.

Lemma respond_valid (w : World) (response : option ModelReply) :
  (∀ parsed, response = Some parsed → model_categories_valid parsed) →
  keeps_valid (respond w response).
Proof.
  intros Hmodel. unfold respond.
  destruct response as [parsed|]; [|by apply keeps_valid_reply].
  destruct (Hmodel parsed eq_refl) as [Hlog Hupdate].
  destruct (_ || _); [by apply keeps_valid_reply|].
  destruct (strict_eq (m_execution_status parsed) _); [by apply keeps_valid_reply|].
  destruct (strict_eq (m_intent parsed) (JStr "log_expense")) eqn:Hi1.
  { apply logExpenseCase_valid. by apply Hlog, strict_eq_true. }
  destruct (strict_eq (m_intent parsed) (JStr "update_last_expense")) eqn:Hi2.
  { apply updateLastExpenseCase_valid. by apply Hupdate, strict_eq_true. }
  destruct (strict_eq (m_intent parsed) (JStr "get_summary")).
  { apply getSummaryCase_valid. }
  destruct (strict_eq (m_intent parsed) (JStr "set_budget")).
  { apply setBudgetCase_valid. }
  destruct (strict_eq (m_intent parsed) (JStr "get_advice"));
    by apply keeps_valid_reply.
Qed.

(** C3, as the specification words it, fails: when the model answers a
    [log_expense] request with a label of its own, that label is recorded
    and returned. *)
Lemma log_expense_records_unlisted_category :
  match POST (worldWith (ParsedValue groceries)) (say "weekly shop 800") initialStore with
  | (Returned resp, s') =>
      e_category <$> expenses s' = [JStr "Groceries"] ∧
      fmap (M := list) e_category <$> updatedExpenses resp = Some [JStr "Groceries"] ∧
      ¬ CategoryKey (JStr "Groceries")
  | (Thrown _, _) => False
  end.
Proof.
  vm_compute. split; [reflexivity|]. split; [reflexivity|].
  intros H. apply CategoryKey_decide in H. vm_compute in H. discriminate.
Qed.

(** C3 (amended): the handlers copy categories and never check them.  Every
    expense record held in the store or returned by the entries endpoint has
    a category among the nine labels provided that the records already in
    the store, those of the list the client sends and the category in the
    model's data have one; for a [log_expense] request the recorded category
    is the category of the model's data, as it is. *)
Theorem categories_are_copied (w : World) (req : Request) (s : Store) :
  valid_store s →
  (∀ clientExpenses, body_expenses req = Some clientExpenses →
                     valid_categories clientExpenses) →
  (∀ parsed, answer w req s = Some parsed → model_categories_valid parsed) →
  valid_store (POST w req s).2 ∧
  (∀ resp l, (POST w req s).1 = Returned resp → updatedExpenses resp = Some l →
             valid_categories l) ∧
  (∃ l limits, (GET (POST w req s).2).1 = Returned (l, limits) ∧ valid_categories l) ∧
  (∀ parsed d,
     answer w req s = Some parsed → proceeds parsed = true →
     m_intent parsed = JStr "log_expense" → m_data parsed = Some d →
     ∃ newExpense,
       expenses (POST w req s).2 = newExpense :: expenses (hydrated req s) ∧
       e_category newExpense = prop (d_category d)).
Proof.
  intros Hs Hclient Hmodel.
  assert (valid_store (hydrated req s)) as Hhydrated.
  { unfold hydrated, hydrate. destruct (body_expenses req) as [l|]; [|done].
    simpl. split; simpl; [by apply Hclient|].
    destruct l as [|e l]; simpl; [done|]. intros e' [= <-].
    by destruct (Forall_cons_1 _ e l (Hclient _ eq_refl)). }
  destruct (respond_valid w (answer w req s) Hmodel _ Hhydrated) as [Hstore Hresp].
  rewrite POST_respond.
  split; [exact Hstore|]. split; [exact Hresp|]. split.
  - eexists _, _. split; [reflexivity|]. apply Hstore.
  - intros parsed d Hanswer Hproceeds Hintent Hdata.
    rewrite Hanswer, (respond_log_expense _ _ Hproceeds Hintent).
    unfold logExpenseCase. rewrite Hdata. by eexists.
Qed.

Lemma categories_are_copied_witness :
  valid_store (mkStore [bus] ∅ (Some bus)) ∧
  valid_store (POST (worldWith (ParsedValue undated)) (say "latte 120")
                 (mkStore [bus] ∅ (Some bus))).2.
Proof.
  assert (CategoryKey (JStr "Transport")) as Htransport.
  { apply CategoryKey_decide. reflexivity. }
  assert (valid_store (mkStore [bus] ∅ (Some bus))) as Hs.
  { split; simpl.
    - apply Forall_cons; split; [exact Htransport | apply Forall_nil_2].
    - intros e [= <-]. exact Htransport. }
  split; [exact Hs|].
  apply (categories_are_copied (worldWith (ParsedValue undated)) (say "latte 120")
           (mkStore [bus] ∅ (Some bus)) Hs).
  - intros clientExpenses Hnone. discriminate Hnone.
  - intros parsed [= <-]. split.
    + intros _ d [= <-]. apply CategoryKey_decide. reflexivity.
    + intros Hintent. discriminate Hintent.
Defined.

(** ** The shape of the response *)

(** C5, as the specification words it, fails: a request to update the last
    expense, when there is no last transaction, is answered with a reply and
    no expense list. *)
Lemma update_without_last_transaction_has_no_list :
  answer (worldWith (ParsedValue changeTo250)) (firstMessage "oops, make it 250")
    initialStore = Some changeTo250 ∧
  m_intent changeTo250 = JStr "update_last_expense" ∧
  (POST (worldWith (ParsedValue changeTo250)) (firstMessage "oops, make it 250")
     initialStore).1 = Returned (replyOnly noRecentTransaction) ∧
  updatedExpenses (replyOnly noRecentTransaction) = None ∧
  extras (replyOnly noRecentTransaction) = [].
Proof. by repeat split. Qed.

Ltac no_extras :=
  split; [simpl; lia|]; repeat split; first [done | congruence].

Ltac one_extra parsed :=
  split; [right; by exists parsed|];
  split; [unfold extras; simpl; repeat case_match; simpl; lia|];
  repeat split; try done; try congruence;
  try (eexists parsed; split; [done|]; first [done | by left | by right]).

Lemma respond_well_shaped (w : World) (response : option ModelReply) (s : Store) :
  well_shaped response (respond w response s).
Proof.
  unfold respond. destruct response as [parsed|].
  2:{ simpl. split; [left; set_solver|]. no_extras. }
  destruct (negb (truthy (m_intent parsed))) eqn:Hintent; simpl.
  { split; [left; set_solver|]. no_extras. }
  destruct (strict_eq (m_execution_status parsed) (JStr "ERROR")) eqn:Herror; simpl.
  { split; [left; set_solver|]. no_extras. }
  destruct (strict_eq (m_execution_status parsed) (JStr "CLARIFICATION_NEEDED"))
    eqn:Hclarify.
  { apply strict_eq_true in Hclarify. simpl. one_extra parsed. }
  assert (proceeds parsed = true) as Hproceeds.
  { unfold proceeds. apply negb_false_iff in Hintent. by rewrite Hintent, Herror, Hclarify. }
  destruct (strict_eq (m_intent parsed) (JStr "log_expense")) eqn:Hi1.
  { apply strict_eq_true in Hi1. unfold logExpenseCase.
    destruct (m_data parsed) as [d|] eqn:Hdata; simpl.
    - one_extra parsed.
    - exists parsed. split; [done|]. split; [done|]. by left. }
  destruct (strict_eq (m_intent parsed) (JStr "update_last_expense")) eqn:Hi2.
  { apply strict_eq_true in Hi2.
    unfold updateLastExpenseCase, mbind, Handler_bind, read, call, write; simpl.
    unfold getLastTransaction.
    destruct (lastTransaction s) as [lastTx|]; simpl.
    2:{ split; [left; set_solver|]. no_extras. }
    destruct (updateExpenseById _ _ s) as [[|] s'] eqn:Hupdate; simpl.
    2:{ split; [left; set_solver|]. no_extras. }
    one_extra parsed. }
  destruct (strict_eq (m_intent parsed) (JStr "get_summary")) eqn:Hi3.
  { apply strict_eq_true in Hi3. unfold getSummaryCase.
    destruct (m_data parsed) as [d|] eqn:Hdata; simpl.
    - one_extra parsed. intros summary Hsummary. by exists parsed, d.
    - exists parsed. split; [done|]. split; [done|]. by left. }
  destruct (strict_eq (m_intent parsed) (JStr "set_budget")) eqn:Hi4.
  { apply strict_eq_true in Hi4.
    destruct (m_data parsed) as [d|] eqn:Hdata.
    2:{ unfold setBudgetCase. rewrite Hdata. simpl.
        exists parsed. split; [done|]. split; [done|]. by left. }
    destruct (classic_readable (prop (d_category d))) as [Hreadable|Hunreadable].
    - rewrite (setBudgetCase_returns parsed d s Hdata Hreadable). simpl.
      one_extra parsed.
    - unfold setBudgetCase. rewrite Hdata.
      unfold mbind, Handler_bind, read, write; simpl.
      destruct (prop (d_category d)) as [| |[]|n|c] eqn:Hcategory; simpl.
      all: try (exfalso; apply Hunreadable; by right).
      all: try (exfalso; apply Hunreadable; left; by eexists).
      + exists parsed. split; [done|]. split; [done|]. right. exists d.
        by rewrite Hcategory.
      + destruct (negb (n =? 0)%Z) eqn:Hn; simpl.
        * exists parsed. split; [done|]. split; [done|]. right. exists d.
          by rewrite Hcategory.
        * exfalso. apply Hunreadable. by right. }
  destruct (strict_eq (m_intent parsed) (JStr "get_advice")); simpl.
  - split; [right; by exists parsed|]. no_extras.
  - split; [left; set_solver|]. no_extras.
Qed.

(** C5 (amended): in every response of the entries handler the reply is the
    model's reply or one of the handler's fixed messages, and besides the
    reply the body holds at most one further property, each only for its
    intent: the updated expense list for [log_expense], and for
    [update_last_expense] when there is a last transaction and it is found
    in the list; the updated budget map for [set_budget]; the model's
    summary for [get_summary], when the model's data has a result; the
    model's data when it asks for clarification.  A request to update the
    last expense when there is none is answered with a fixed reply alone.
    The handler fails instead of answering when the request body is not
    JSON or is [null], and otherwise only when the model's data is missing
    or its budget category is unreadable. *)
Theorem entries_response_shape (w : World) (req : NextRequest) (s : Store) :
  match req with
  | JsonRejected | JsonNull => ∃ error, POST w req s = (Thrown error, s)
  | JsonBody body =>
      well_shaped (answer w body s) (POST w body s) ∧
      (∀ parsed d,
         answer w body s = Some parsed → proceeds parsed = true →
         m_data parsed = Some d →
         (m_intent parsed = JStr "log_expense" →
          ∃ resp s', POST w body s = (Returned resp, s') ∧
                     reply resp = m_reply parsed ∧
                     updatedExpenses resp = Some (expenses s') ∧
                     extras resp = ["updatedExpenses"]) ∧
         (m_intent parsed = JStr "set_budget" →
          readable_category (prop (d_category d)) →
          ∃ resp s', POST w body s = (Returned resp, s') ∧
                     reply resp = m_reply parsed ∧
                     updatedBudget resp = Some (budget s') ∧
                     extras resp = ["updatedBudget"]) ∧
         (m_intent parsed = JStr "get_summary" →
          ∃ resp, POST w body s = (Returned resp, hydrated body s) ∧
                  reply resp = m_reply parsed ∧
                  summaryData resp = d_result d ∧
                  updatedExpenses resp = None ∧ updatedBudget resp = None ∧
                  data resp = None)) ∧
      (∀ parsed,
         answer w body s = Some parsed → proceeds parsed = true →
         m_intent parsed = JStr "update_last_expense" →
         match lastTransaction (hydrated body s) with
         | None =>
             POST w body s
             = (Returned (replyOnly noRecentTransaction), hydrated body s)
         | Some lastTx =>
             (∃ e, e ∈ expenses (hydrated body s) ∧ e_id e = e_id lastTx) →
             ∃ resp s', POST w body s = (Returned resp, s') ∧
                        reply resp = m_reply parsed ∧
                        updatedExpenses resp = Some (expenses s') ∧
                        extras resp = ["updatedExpenses"]
         end)
  end.
Proof.
  destruct req as [| |body]; [by eexists | by eexists |].
  rewrite POST_respond. split; [apply respond_well_shaped|]. split.
  - intros parsed d -> Hproceeds Hdata. split; [|split].
    + intros Hintent. rewrite (respond_log_expense _ _ Hproceeds Hintent).
      unfold logExpenseCase. rewrite Hdata. by eexists _, _.
    + intros Hintent Hreadable.
      rewrite (respond_set_budget _ _ Hproceeds Hintent).
      rewrite (setBudgetCase_returns _ _ _ Hdata Hreadable). by eexists _, _.
    + intros Hintent. rewrite (respond_get_summary _ _ Hproceeds Hintent).
      unfold getSummaryCase. rewrite Hdata. by eexists.
  - intros parsed -> Hproceeds Hintent.
    rewrite (respond_update_last_expense _ _ Hproceeds Hintent).
    unfold updateLastExpenseCase, mbind, Handler_bind, read, call, write; simpl.
    unfold getLastTransaction.
    destruct (lastTransaction (hydrated body s)) as [lastTx|]; simpl; [|done].
    intros (e & He & Hid).
    destruct (findIndex (λ e, strict_eq (e_id e) (e_id lastTx))
                (expenses (hydrated body s))) as [i|] eqn:Hfind.
    + unfold updateExpenseById. rewrite Hfind. simpl. by eexists _, _.
    + exfalso. by apply (proj1 (findIndex_no_match _ _) Hfind e).
Qed.

Example update_last_expense_sample :
  (POST (worldWith (ParsedValue changeTo250))
     {| body_message := JStr "oops, make it 250";
        body_expenses := Some [latte; bus]; body_budget := None |}
     initialStore).1
  = Returned {| reply := JStr "Updated the amount to 250.";
                updatedExpenses :=
                  Some [mkExpense (JStr "1") (JNum 250) (JStr "Coffee")
                          (JStr "latte") (JStr "05-03-2024"); bus];
                updatedBudget := None; summaryData := None; data := None |}.
Proof. reflexivity. Qed.

(** * Further properties of the code *)

(** ** expenseStore.ts: how the operations compose *)

Lemma filter_all {A : Type} (P : A → Prop) `{∀ x, Decision (P x)} (l : list A) :
  filter P l = l ↔ ∀ x, x ∈ l → P x.
Proof.
  split.
  - intros Heq x Hx. rewrite <- Heq in Hx. by apply list_elem_of_filter in Hx as [? _].
  - intros Hall. induction l as [|y l IH]; [done|].
    rewrite filter_cons. destruct (decide (P y)) as [_|Hy].
    + f_equal. apply IH. intros x Hx. apply Hall. by right.
    + exfalso. apply Hy, Hall. by left.
Qed.

(** X1: deleting an id leaves the store exactly as it was if and only if no
    stored expense has that id. *)
Theorem deleteExpense_absent_iff (id : prim) (s : Store) :
  deleteExpense id s = s ↔ ∀ e, e ∈ expenses s → e_id e ≠ id.
Proof.
  rewrite <- (filter_all (λ e, e_id e ≠ id)). split.
  - intros Heq. by apply (f_equal expenses) in Heq.
  - intros Heq. destruct s as [l b last]. unfold deleteExpense; simpl in *.
    by rewrite Heq.
Qed.

(** X2: deleting the same id twice is the same as deleting it once, and
    deletions of two ids can be done in either order. *)
Theorem deleteExpense_compose (id1 id2 : prim) (s : Store) :
  deleteExpense id1 (deleteExpense id1 s) = deleteExpense id1 s ∧
  deleteExpense id1 (deleteExpense id2 s) = deleteExpense id2 (deleteExpense id1 s).
Proof.
  unfold deleteExpense; simpl. split; f_equal.
  - apply list_filter_filter_l. done.
  - rewrite !list_filter_filter. apply list_filter_iff. intros e. tauto.
Qed.

(** X3: adding an expense whose id is not yet in the list and then
    deleting that id restores the list; all that is left of the pair of
    calls is the last transaction, which still is the deleted expense. *)
Theorem add_then_delete (expense : Expense) (s : Store) :
  (∀ e, e ∈ expenses s → e_id e ≠ e_id expense) →
  deleteExpense (e_id expense) (addExpense expense s)
  = updateLastTransaction (Some expense) s.
Proof.
  intros Hfresh. unfold deleteExpense, addExpense, updateLastTransaction; simpl.
  f_equal. rewrite filter_cons. destruct (decide _) as [Hne|_]; [done|].
  by apply filter_all.
Qed.

Lemma add_then_delete_witness :
  (∀ e, e ∈ expenses (mkStore [bus] ∅ (Some bus)) → e_id e ≠ e_id latte) ∧
  deleteExpense (e_id latte) (addExpense latte (mkStore [bus] ∅ (Some bus)))
  = mkStore [bus] ∅ (Some latte).
Proof.
  assert (∀ e, e ∈ expenses (mkStore [bus] ∅ (Some bus)) → e_id e ≠ e_id latte)
    as Hfresh.
  { simpl. intros e He. apply list_elem_of_singleton in He. rewrite He. discriminate. }
  split; [exact Hfresh|].
  exact (add_then_delete latte (mkStore [bus] ∅ (Some bus)) Hfresh).
Defined.

Lemma findIndex_by_id (id : prim) (l : list Expense) :
  findIndex (λ e, strict_eq (e_id e) id) l
  = findIndex (λ x, strict_eq x id) (e_id <$> l).
Proof. induction l as [|e l IH]; simpl; [done|]. by rewrite IH. Qed.

Lemma spread_typed_id (e : Expense) (updates : Updates) :
  typed_updates updates → e_id (spread e updates) = e_id e.
Proof. unfold typed_updates, spread; simpl. by intros ->. Qed.

Lemma alter_spread_ids (updates : Updates) (i : nat) (l : list Expense) :
  typed_updates updates →
  e_id <$> alter (λ e, spread e updates) i l = e_id <$> l.
Proof.
  intros Htyped. apply list_eq. intros j. rewrite !list_lookup_fmap.
  destruct (decide (i = j)) as [<-|Hne].
  - rewrite list_lookup_alter_eq. destruct (l !! i) as [e|]; [|done].
    change (Some (e_id (spread e updates)) = Some (e_id e)).
    by rewrite spread_typed_id.
  - by rewrite list_lookup_alter_ne.
Qed.

Lemma spread_twice (e : Expense) (updates : Updates) :
  spread (spread e updates) updates = spread e updates.
Proof.
  unfold spread; simpl.
  by destruct (u_id updates), (u_amount updates), (u_category updates),
    (u_note updates), (u_date updates).
Qed.

(** X4: an update whose fields do not include [id] is idempotent: a second
    call with the same id and fields returns the same flag and leaves the
    store of the first call as it is. *)
Theorem updateExpenseById_idempotent (id : prim) (updates : Updates) (s : Store) :
  typed_updates updates →
  updateExpenseById id updates (updateExpenseById id updates s).2
  = updateExpenseById id updates s.
Proof.
  intros Htyped.
  destruct (findIndex (λ e, strict_eq (e_id e) id) (expenses s)) as [i|] eqn:Hfind.
  2:{ by rewrite !(updateExpenseById_not_found _ _ _ Hfind). }
  unfold updateExpenseById at 2 3. rewrite Hfind. simpl.
  unfold updateExpenseById. simpl.
  rewrite findIndex_by_id, (alter_spread_ids _ _ _ Htyped), <- findIndex_by_id, Hfind.
  rewrite list_alter_alter_eq.
  assert (alter ((λ e, spread e updates) ∘ (λ e, spread e updates)) i (expenses s)
          = alter (λ e, spread e updates) i (expenses s)) as ->.
  { apply list_alter_ext; [|done]. intros e _. apply spread_twice. }
  do 2 f_equal.
  destruct (lastTransaction s) as [last|]; [|done].
  destruct (strict_eq (e_id last) id) eqn:Hlast; [|by rewrite Hlast].
  rewrite list_lookup_alter_eq.
  destruct (expenses s !! i) as [e|] eqn:He; simpl; [|done].
  by case_match.
Qed.

Lemma updateExpenseById_idempotent_witness :
  typed_updates (mkUpdates None (Some (JNum 45)) None None None) ∧
  updateExpenseById (JStr "2") (mkUpdates None (Some (JNum 45)) None None None)
    (updateExpenseById (JStr "2") (mkUpdates None (Some (JNum 45)) None None None)
       (mkStore [latte; bus] ∅ (Some latte))).2
  = updateExpenseById (JStr "2") (mkUpdates None (Some (JNum 45)) None None None)
      (mkStore [latte; bus] ∅ (Some latte)).
Proof.
  split; [reflexivity|].
  exact (updateExpenseById_idempotent (JStr "2")
           (mkUpdates None (Some (JNum 45)) None None None)
           (mkStore [latte; bus] ∅ (Some latte)) eq_refl).
Defined.


Lemma first_match_findIndex (id : prim) (l : list Expense) (i : nat) :
  first_match id l i → findIndex (λ e, strict_eq (e_id e) id) l = Some i.
Proof.
  intros [(e & He & Hid) Hbefore].
  destruct (findIndex (λ e, strict_eq (e_id e) id) l) as [k|] eqn:Hfind.
  - pose proof (findIndex_first_match _ _ _ Hfind) as [(ek & Hek & Hidk) Hbeforek].
    f_equal. destruct (Nat.lt_trichotomy k i) as [Hlt|[Heq|Hlt]]; [|done|].
    + by destruct (Hbefore k ek Hlt Hek).
    + by destruct (Hbeforek i e Hlt He).
  - exfalso. apply (proj1 (findIndex_no_match _ _) Hfind e); [|done].
    by eapply list_elem_of_lookup_2.
Qed.

(** X5: what an update does to the last transaction.  A last transaction
    with another id is kept.  A last transaction with the given id is
    replaced, when the id is found in the list, by the updated list element,
    even if it was not an element of the list before; when the id is not
    found it stays as it was. *)
Theorem updateExpenseById_last_transaction
    (id : prim) (updates : Updates) (s : Store) (last : Expense) :
  lastTransaction s = Some last →
  (e_id last ≠ id →
   lastTransaction (updateExpenseById id updates s).2 = Some last) ∧
  (e_id last = id →
   ∀ i e, first_match id (expenses s) i → expenses s !! i = Some e →
     lastTransaction (updateExpenseById id updates s).2 = Some (spread e updates) ∧
     expenses (updateExpenseById id updates s).2 !! i = Some (spread e updates)) ∧
  ((∀ e, e ∈ expenses s → e_id e ≠ id) →
   lastTransaction (updateExpenseById id updates s).2 = Some last).
Proof.
  intros Hlast. split; [|split].
  - intros Hne%strict_eq_false. unfold updateExpenseById.
    destruct (findIndex _ _); simpl; [|done]. by rewrite Hlast, Hne.
  - intros Heq%strict_eq_true i e Hfirst%first_match_findIndex He.
    unfold updateExpenseById. rewrite Hfirst. simpl.
    rewrite Hlast, Heq, list_lookup_alter_eq, He. done.
  - intros Hnone. apply (proj2 (findIndex_no_match _ _)) in Hnone.
    by rewrite (updateExpenseById_not_found _ _ _ Hnone).
Qed.

Lemma updateExpenseById_last_transaction_witness :
  lastTransaction (mkStore [bus; latte] ∅ (Some latte)) = Some latte ∧
  lastTransaction
    (updateExpenseById (JStr "1") (mkUpdates None (Some (JNum 150)) None None None)
       (mkStore [bus; latte] ∅ (Some latte))).2
  = Some (mkExpense (JStr "1") (JNum 150) (JStr "Coffee") (JStr "latte")
            (JStr "05-03-2024")).
Proof.
  split; [reflexivity|].
  refine (proj1 (proj1 (proj2 (updateExpenseById_last_transaction (JStr "1")
            (mkUpdates None (Some (JNum 150)) None None None)
            (mkStore [bus; latte] ∅ (Some latte)) latte eq_refl))
            eq_refl 1 latte _ eq_refl)).
  split.
  - exists latte. split; reflexivity.
  - intros [|j] e Hj He; [|lia]. simpl in He. injection He as <-. discriminate.
Defined.

(** ** The entries route: failures, invariants and frames *)

Lemma unreadable_throws (parsed : ModelReply) (d : ModelData) (s : Store) :
  m_data parsed = Some d → ¬ readable_category (prop (d_category d)) →
  setBudgetCase parsed s = (Thrown TypeError, s).
Proof.
  intros Hdata Hunreadable. unfold setBudgetCase. rewrite Hdata.
  unfold mbind, Handler_bind, read; simpl.
  destruct (prop (d_category d)) as [| |[]|n|c]; simpl.
  all: try (exfalso; apply Hunreadable; by right).
  - done.
  - destruct (negb (n =? 0)%Z) eqn:Hn; simpl; [done|].
    exfalso. apply Hunreadable. by right.
  - exfalso. apply Hunreadable. left. by exists c.
Qed.

Lemma respond_throws (w : World) (response : option ModelReply) (s : Store) error :
  (respond w response s).1 = Thrown error →
  (∃ parsed, response = Some parsed ∧ entries_failure parsed) ∧
  (respond w response s).2 = s.
Proof.
  unfold respond. destruct response as [parsed|]; [|done].
  destruct (negb (truthy (m_intent parsed))) eqn:Hintent; simpl; [done|].
  destruct (strict_eq (m_execution_status parsed) (JStr "ERROR")) eqn:Herror;
    simpl; [done|].
  destruct (strict_eq (m_execution_status parsed) (JStr "CLARIFICATION_NEEDED"))
    eqn:Hclarify; [done|].
  assert (proceeds parsed = true) as Hproceeds.
  { unfold proceeds. apply negb_false_iff in Hintent. by rewrite Hintent, Herror, Hclarify. }
  unfold entries_failure, reads_data.
  destruct (strict_eq (m_intent parsed) (JStr "log_expense")) eqn:Hi1.
  { unfold logExpenseCase. destruct (m_data parsed) as [d|] eqn:Hdata; [done|].
    intros _. split; [|done]. exists parsed. split; [done|]. split; [done|]. left.
    by rewrite ?Hi1, ?Hi3, ?Hi4. }
  destruct (strict_eq (m_intent parsed) (JStr "update_last_expense")) eqn:Hi2.
  { unfold updateLastExpenseCase, mbind, Handler_bind, read, call, write; simpl.
    destruct (getLastTransaction s); simpl; [|done].
    by destruct (updateExpenseById _ _ s) as [[|] s']. }
  destruct (strict_eq (m_intent parsed) (JStr "get_summary")) eqn:Hi3.
  { unfold getSummaryCase. destruct (m_data parsed) as [d|] eqn:Hdata; [done|].
    intros _. split; [|done]. exists parsed. split; [done|]. split; [done|]. left.
    by rewrite ?Hi1, ?Hi3, ?Hi4. }
  destruct (strict_eq (m_intent parsed) (JStr "set_budget")) eqn:Hi4.
  { destruct (m_data parsed) as [d|] eqn:Hdata.
    2:{ unfold setBudgetCase. rewrite Hdata. intros _. split; [|done].
        exists parsed. split; [done|]. split; [done|]. left.
    by rewrite ?Hi1, ?Hi3, ?Hi4. }
    destruct (classic_readable (prop (d_category d))) as [Hreadable|Hunreadable].
    - by rewrite (setBudgetCase_returns parsed d s Hdata Hreadable).
    - rewrite (unreadable_throws parsed d s Hdata Hunreadable). intros _.
      split; [|done]. exists parsed. split; [done|]. split; [done|]. right.
      split; [by apply strict_eq_true|]. by exists d. }
  by destruct (strict_eq (m_intent parsed) (JStr "get_advice")).
Qed.

(** X6: the entries handler throws, instead of answering, exactly when the
    request body is not JSON or is [null], or the model's answer reaches the
    [switch] and either its intent is [log_expense], [get_summary] or
    [set_budget] with no data object, or its intent is [set_budget] with a
    category that is neither a string nor falsy.  A request that fails on
    its body has written nothing, and one that fails later has written
    nothing but the hydration. *)
Theorem POST_throws_iff (w : World) (req : NextRequest) (s : Store) :
  ((∃ error, (POST w req s).1 = Thrown error) ↔
   req = JsonRejected ∨ req = JsonNull ∨
   ∃ body parsed, req = JsonBody body ∧ answer w body s = Some parsed ∧
                  entries_failure parsed) ∧
  ∀ error, (POST w req s).1 = Thrown error →
           (POST w req s).2 = match req with
                              | JsonBody body => hydrated body s
                              | JsonRejected | JsonNull => s
                              end.
Proof.
  destruct req as [| |body].
  - split; [|done]. split; [by left | by eexists].
  - split; [|done]. split; [by right; left | by eexists].
  - rewrite POST_respond. split; [split|].
    + intros [error Hthrown]. right; right. exists body.
      apply respond_throws in Hthrown as [(parsed & Hparsed & Hfailure) _].
      by exists parsed.
    + intros [[=]|[[=]|(body' & parsed & [= <-] & Hanswer & Hproceeds & Hfailure)]].
      rewrite Hanswer.
      destruct Hfailure as [[Hreads Hdata]|(Hintent & d & Hdata & Hunreadable)].
      * unfold reads_data in Hreads.
        apply orb_true_iff in Hreads as [Hreads|Hintent%strict_eq_true].
        -- apply orb_true_iff in Hreads
             as [Hintent%strict_eq_true|Hintent%strict_eq_true].
           ++ rewrite (respond_log_expense _ _ Hproceeds Hintent).
              unfold logExpenseCase. rewrite Hdata. by eexists.
           ++ rewrite (respond_get_summary _ _ Hproceeds Hintent).
              unfold getSummaryCase. rewrite Hdata. by eexists.
        -- rewrite (respond_set_budget _ _ Hproceeds Hintent).
           unfold setBudgetCase. rewrite Hdata. by eexists.
      * rewrite (respond_set_budget _ _ Hproceeds Hintent).
        rewrite (unreadable_throws _ _ _ Hdata Hunreadable). by eexists.
    + intros error Hthrown. by apply respond_throws in Hthrown as [_ ?].
Qed.

Lemma synced_setBudget (limits : BudgetMap) (s : Store) :
  synced s → synced (setBudget limits s).
Proof. done. Qed.

Lemma updateLastExpenseCase_in_sync (parsed : ModelReply) (s : Store)
    (newest : Expense) (rest : list Expense) :
  expenses s = newest :: rest → lastTransaction s = Some newest →
  updateLastExpenseCase parsed s
  = (Returned {| reply := m_reply parsed;
                 updatedExpenses :=
                   Some (spread newest (as_updates (m_data parsed)) :: rest);
                 updatedBudget := None; summaryData := None; data := None |},
     {| expenses := spread newest (as_updates (m_data parsed)) :: rest;
        budget := budget s;
        lastTransaction := Some (spread newest (as_updates (m_data parsed))) |}).
Proof.
  intros Hl Hlast.
  unfold updateLastExpenseCase, mbind, Handler_bind, read, call, write; simpl.
  unfold getLastTransaction, updateExpenseById. rewrite Hlast, Hl. simpl.
  by rewrite (proj2 (strict_eq_true _ _) eq_refl).
Qed.

Lemma respond_synced (w : World) (response : option ModelReply) (s : Store) :
  synced s → synced (respond w response s).2.
Proof.
  intros Hs. unfold respond. destruct response as [parsed|]; [|done].
  destruct (_ || _); [done|].
  destruct (strict_eq (m_execution_status parsed) _); [done|].
  destruct (strict_eq (m_intent parsed) (JStr "log_expense")).
  { unfold logExpenseCase. by destruct (m_data parsed). }
  destruct (strict_eq (m_intent parsed) (JStr "update_last_expense")).
  { destruct s as [[|newest rest] limits last]; unfold synced in Hs; simpl in Hs;
      subst last.
    - done.
    - by rewrite (updateLastExpenseCase_in_sync parsed _ newest rest). }
  destruct (strict_eq (m_intent parsed) (JStr "get_summary")).
  { unfold getSummaryCase. by destruct (m_data parsed). }
  destruct (strict_eq (m_intent parsed) (JStr "set_budget")).
  { unfold setBudgetCase. destruct (m_data parsed) as [d|]; [|done].
    unfold mbind, Handler_bind, read, write; simpl.
    destruct (prop (d_category d)) as [| |[]|n|c]; simpl;
      repeat match goal with |- context [if ?b then _ else _] => destruct b; simpl end;
      done. }
  by destruct (strict_eq (m_intent parsed) (JStr "get_advice")).
Qed.

(** X7: the entries handler keeps the last transaction in step with the
    list: when the request carries an expense array, or the store was in
    step before, then after the request (answered or failed, whatever the
    model said) the last transaction is the first element of the stored
    list, and [null] if the list is empty. *)
Theorem POST_keeps_synced (w : World) (req : Request) (s : Store) :
  is_Some (body_expenses req) ∨ synced s →
  synced (POST w req s).2.
Proof.
  intros Hstart. rewrite POST_respond. apply respond_synced.
  unfold hydrated, hydrate.
  destruct (body_expenses req) as [l|]; simpl.
  - apply setExpensesForRequest_synced.
  - destruct Hstart as [[l Hl]|Hs]; [done | exact Hs].
Qed.

Lemma POST_keeps_synced_witness :
  synced (POST (worldWith (ParsedValue changeTo250))
            {| body_message := JStr "oops, make it 250";
               body_expenses := Some [latte; bus]; body_budget := None |}
            (mkStore [bus] ∅ None)).2.
Proof.
  apply POST_keeps_synced. left. simpl. by eexists.
Defined.

(** X8: when the request carries a non-empty array of expense objects, a
    request to update the last expense succeeds: the first element of the
    client's list gets the fields of the model's data, the rest of the list
    is returned as it was sent, and the answer is neither "no recent
    transaction" nor "could not find the transaction".  (The elements must
    be objects: after an array that starts with [null] the handler finds no
    last transaction; such arrays are not among the bodies of [Request].) *)
Theorem update_last_expense_succeeds
    (w : World) (req : Request) (s : Store) (parsed : ModelReply)
    (newest : Expense) (rest : list Expense) :
  body_expenses req = Some (newest :: rest) →
  answer w req s = Some parsed →
  proceeds parsed = true →
  m_intent parsed = JStr "update_last_expense" →
  POST w req s
  = (Returned {| reply := m_reply parsed;
                 updatedExpenses :=
                   Some (spread newest (as_updates (m_data parsed)) :: rest);
                 updatedBudget := None; summaryData := None; data := None |},
     {| expenses := spread newest (as_updates (m_data parsed)) :: rest;
        budget := budget s;
        lastTransaction := Some (spread newest (as_updates (m_data parsed))) |}).
Proof.
  intros Hbody Hanswer Hproceeds Hintent.
  rewrite POST_respond, Hanswer, (respond_update_last_expense _ _ Hproceeds Hintent).
  rewrite (updateLastExpenseCase_in_sync parsed _ newest rest).
  - by rewrite hydrated_budget.
  - unfold hydrated, hydrate. by rewrite Hbody.
  - unfold hydrated, hydrate. by rewrite Hbody.
Qed.

Lemma update_last_expense_succeeds_witness :
  POST (worldWith (ParsedValue changeTo250))
    {| body_message := JStr "oops, make it 250";
       body_expenses := Some [latte; bus]; body_budget := None |}
    initialStore
  = (Returned {| reply := m_reply changeTo250;
                 updatedExpenses :=
                   Some (spread latte (as_updates (m_data changeTo250)) :: [bus]);
                 updatedBudget := None; summaryData := None; data := None |},
     {| expenses := spread latte (as_updates (m_data changeTo250)) :: [bus];
        budget := budget initialStore;
        lastTransaction := Some (spread latte (as_updates (m_data changeTo250))) |}).
Proof.
  exact (update_last_expense_succeeds (worldWith (ParsedValue changeTo250))
           {| body_message := JStr "oops, make it 250";
              body_expenses := Some [latte; bus]; body_budget := None |}
           initialStore changeTo250 latte [bus] eq_refl eq_refl eq_refl eq_refl).
Defined.

Lemma setBudgetCase_expenses (parsed : ModelReply) (s : Store) :
  expenses (setBudgetCase parsed s).2 = expenses s ∧
  lastTransaction (setBudgetCase parsed s).2 = lastTransaction s.
Proof.
  unfold setBudgetCase. destruct (m_data parsed) as [d|]; [|done].
  unfold mbind, Handler_bind, read, write; simpl.
  destruct (prop (d_category d)) as [| |[]|n|c]; simpl;
    repeat match goal with |- context [if ?b then _ else _] => destruct b; simpl end;
    done.
Qed.

Lemma updateLastExpenseCase_budget (parsed : ModelReply) (s : Store) :
  budget (updateLastExpenseCase parsed s).2 = budget s.
Proof.
  unfold updateLastExpenseCase, mbind, Handler_bind, read, call, write; simpl.
  destruct (getLastTransaction s) as [lastTx|]; simpl; [|done].
  unfold updateExpenseById. by destruct (findIndex _ _).
Qed.

Lemma respond_frame (w : World) (response : option ModelReply) (s : Store) :
  (budget (respond w response s).2 = budget s ∨
   ∃ parsed, response = Some parsed ∧ proceeds parsed = true ∧
             m_intent parsed = JStr "set_budget") ∧
  ((expenses (respond w response s).2 = expenses s ∧
    lastTransaction (respond w response s).2 = lastTransaction s) ∨
   ∃ parsed, response = Some parsed ∧ proceeds parsed = true ∧
             (m_intent parsed = JStr "log_expense"
              ∨ m_intent parsed = JStr "update_last_expense")).
Proof.
  unfold respond. destruct response as [parsed|]; [|by split; left].
  destruct (negb (truthy (m_intent parsed))) eqn:Hintent; simpl; [by split; left|].
  destruct (strict_eq (m_execution_status parsed) (JStr "ERROR")) eqn:Herror;
    simpl; [by split; left|].
  destruct (strict_eq (m_execution_status parsed) (JStr "CLARIFICATION_NEEDED"))
    eqn:Hclarify; [by split; left|].
  assert (proceeds parsed = true) as Hproceeds.
  { unfold proceeds. apply negb_false_iff in Hintent. by rewrite Hintent, Herror, Hclarify. }
  destruct (strict_eq (m_intent parsed) (JStr "log_expense")) eqn:Hi1.
  { apply strict_eq_true in Hi1. split.
    - left. unfold logExpenseCase. by destruct (m_data parsed).
    - right. exists parsed. split; [done|]. split; [done|]. by left. }
  destruct (strict_eq (m_intent parsed) (JStr "update_last_expense")) eqn:Hi2.
  { apply strict_eq_true in Hi2. split.
    - left. apply updateLastExpenseCase_budget.
    - right. exists parsed. split; [done|]. split; [done|]. by right. }
  destruct (strict_eq (m_intent parsed) (JStr "get_summary")) eqn:Hi3.
  { unfold getSummaryCase. destruct (m_data parsed); by split; left. }
  destruct (strict_eq (m_intent parsed) (JStr "set_budget")) eqn:Hi4.
  { apply strict_eq_true in Hi4. split.
    - right. by exists parsed.
    - left. apply setBudgetCase_expenses. }
  destruct (strict_eq (m_intent parsed) (JStr "get_advice")); by split; left.
Qed.

(** X9: what the entries handler leaves alone.  The budget after a request
    differs from the budget before only if the model's answer reaches the
    [switch] with intent [set_budget]; the expense list and the last
    transaction differ from the hydrated ones only if it reaches the
    [switch] with intent [log_expense] or [update_last_expense]. *)
Theorem POST_frame (w : World) (req : Request) (s : Store) :
  (budget (POST w req s).2 ≠ budget s →
   ∃ parsed, answer w req s = Some parsed ∧ proceeds parsed = true ∧
             m_intent parsed = JStr "set_budget") ∧
  (expenses (POST w req s).2 ≠ expenses (hydrated req s)
   ∨ lastTransaction (POST w req s).2 ≠ lastTransaction (hydrated req s) →
   ∃ parsed, answer w req s = Some parsed ∧ proceeds parsed = true ∧
             (m_intent parsed = JStr "log_expense"
              ∨ m_intent parsed = JStr "update_last_expense")).
Proof.
  rewrite POST_respond.
  destruct (respond_frame w (answer w req s) (hydrated req s)) as [Hbudget Hlist].
  rewrite hydrated_budget in Hbudget. split.
  - intros Hchanged. by destruct Hbudget as [Hsame|Hset].
  - intros Hchanged. destruct Hlist as [[Hl Hlast]|Hlog]; [|done].
    by destruct Hchanged.
Qed.

(** X10: the model's [execution_status] comes before its intent.  With
    status ["ERROR"] the answer is the fallback message, and with status
    ["CLARIFICATION_NEEDED"] (and some intent) it is the model's reply with
    its data; in both cases nothing is logged, updated or budgeted, even if
    the intent and the data would allow it, and the handler does not
    throw. *)
Theorem status_comes_first
    (w : World) (req : Request) (s : Store) (parsed : ModelReply) :
  answer w req s = Some parsed →
  (m_execution_status parsed = JStr "ERROR" →
   POST w req s = (Returned (replyOnly entriesFallback), hydrated req s)) ∧
  (m_execution_status parsed = JStr "CLARIFICATION_NEEDED" →
   truthy (m_intent parsed) = true →
   POST w req s
   = (Returned {| reply := m_reply parsed; updatedExpenses := None;
                  updatedBudget := None; summaryData := None;
                  data := m_data parsed |},
      hydrated req s)).
Proof.
  intros Hanswer. rewrite POST_respond, Hanswer. unfold respond. split.
  - intros ->. simpl. by rewrite orb_true_r.
  - intros -> ->. done.
Qed.

Lemma status_comes_first_witness :
  POST (worldWith (ParsedValue unsure)) (firstMessage "120 yesterday") initialStore
  = (Returned {| reply := JStr "Which category is this?"; updatedExpenses := None;
                 updatedBudget := None; summaryData := None;
                 data := m_data unsure |},
     initialStore).
Proof.
  exact (proj2 (status_comes_first (worldWith (ParsedValue unsure))
                  (firstMessage "120 yesterday") initialStore unsure eq_refl)
           eq_refl eq_refl).
Defined.

(** What the model is shown.  The prompt of the entries route carries
    the first five expenses of the (hydrated) list, or all of them if there
    are fewer, together with the last transaction, which for a request with
    an expense array is the first of the expenses shown; the prompt of the
    chat route carries the whole stored list. *)
Theorem prompts_show_expenses (w : World) (req : Request) (s : Store) :
  (∃ today last recent,
     advancedPrompt w (body_message req) (contextOf (hydrated req s))
     = AdvancedPrompt today last recent (budget s) (body_message req) ∧
     recent `prefix_of` expenses (hydrated req s) ∧
     length recent = 5 `min` length (expenses (hydrated req s)) ∧
     last = lastTransaction (hydrated req s) ∧
     (is_Some (body_expenses req) → last = head recent)) ∧
  (∃ today currentMonth,
     assistantPrompt w (body_message req) (getExpenses s) (getBudget s)
     = AssistantPrompt today currentMonth (expenses s) (budget s) (body_message req)).
Proof.
  split.
  - eexists _, _, _. unfold advancedPrompt, contextOf, getBudget.
    cbn [ctx_expenses ctx_budget ctx_lastTransaction]. rewrite hydrated_budget.
    split; [reflexivity|]. split; [apply prefix_take|].
    split; [apply length_take|]. split; [done|].
    intros [l Hl]. unfold getLastTransaction, getExpenses, hydrated, hydrate.
    rewrite Hl. simpl. by destruct l.
  - by eexists _, _.
Qed.

Lemma pretty_N_char_digit (d : N) :
  (d < 10)%N →
  is_digit (pretty_N_char d) = true ∧ digit_value (pretty_N_char d) = d ∧
  (pretty_N_char d = "0"%char → d = 0%N).
Proof.
  intros Hd.
  assert (d = 0 ∨ d = 1 ∨ d = 2 ∨ d = 3 ∨ d = 4 ∨ d = 5 ∨ d = 6 ∨ d = 7
          ∨ d = 8 ∨ d = 9)%N as Hcases by lia.
  repeat (destruct Hcases as [->|Hcases]); try subst d;
    (split; [reflexivity|]; split; [reflexivity|]; by intros [=]).
Qed.

Lemma pretty_N_go_read (x : N) (s : string) :
  read_digits (pretty_N_go x s) 0 = read_digits s x ∧
  (all_digits s = true → all_digits (pretty_N_go x s) = true).
Proof.
  revert s. induction (N.lt_wf_0 x) as [x _ IH]; intros s.
  assert (x = 0 ∨ 0 < x)%N as [->|Hx] by lia; [by rewrite pretty_N_go_0|].
  rewrite pretty_N_go_step by done.
  destruct (pretty_N_char_digit (x `mod` 10)%N) as (Hdigit & Hvalue & _);
    [by apply N.mod_lt|].
  destruct (IH (x `div` 10)%N (N.div_lt x 10 Hx eq_refl)
              (String (pretty_N_char (x `mod` 10)) s)) as [Hread Hall].
  split.
  - rewrite Hread. simpl. rewrite Hvalue. f_equal.
    pose proof (N.div_mod x 10). lia.
  - intros Hs. apply Hall. simpl. by rewrite Hdigit, Hs.
Qed.

Lemma pretty_N_go_head (x : N) (s : string) :
  (0 < x)%N →
  ∃ c rest, pretty_N_go x s = String c rest ∧ c ≠ "0"%char.
Proof.
  revert s. induction (N.lt_wf_0 x) as [x _ IH]; intros s Hx.
  rewrite pretty_N_go_step by done.
  destruct (N.eq_dec (x `div` 10)%N 0%N) as [Hsmall|Hbig%N.neq_0_lt_0].
  - rewrite Hsmall, pretty_N_go_0. eexists _, _. split; [done|].
    destruct (pretty_N_char_digit (x `mod` 10)%N) as (_ & _ & Hzero);
      [by apply N.mod_lt|].
    intros Hc. apply Hzero in Hc. pose proof (N.div_mod x 10). lia.
  - by apply IH; [apply N.div_lt|].
Qed.

(** The decimal form of a natural number is a numeral that reads back as the
    number. *)
Lemma pretty_N_numeral (n : N) :
  is_numeral (pretty n) = true ∧ read_decimal (pretty n) = n.
Proof.
  unfold pretty, pretty_N. case_decide as Hn; [by subst n|].
  destruct (pretty_N_go_read n EmptyString) as [Hread Hall].
  destruct (pretty_N_go_head n EmptyString) as (c & rest & Heq & Hc); [lia|].
  split; [|exact Hread].
  unfold is_numeral. rewrite Hall by done. rewrite Heq. simpl.
  destruct rest; [done|]. apply negb_true_iff. by apply Ascii.eqb_neq.
Qed.

(** X11: the id of a logged expense is the decimal numeral of the clock's
    milliseconds, whatever the model's data says; so two logged expenses
    have the same id exactly when they were logged in the same
    millisecond. *)
Theorem log_expense_ids (w1 w2 : World) (parsed1 parsed2 : ModelReply)
    (d1 d2 : ModelData) (s1 s2 : Store) :
  m_data parsed1 = Some d1 → m_data parsed2 = Some d2 →
  ∃ e1 e2 numeral1 numeral2,
    expenses (logExpenseCase w1 parsed1 s1).2 = e1 :: expenses s1 ∧
    expenses (logExpenseCase w2 parsed2 s2).2 = e2 :: expenses s2 ∧
    e_id e1 = JStr numeral1 ∧ is_numeral numeral1 = true ∧
    read_decimal numeral1 = now_ms (clock w1) ∧
    e_id e2 = JStr numeral2 ∧ is_numeral numeral2 = true ∧
    read_decimal numeral2 = now_ms (clock w2) ∧
    (e_id e1 = e_id e2 ↔ now_ms (clock w1) = now_ms (clock w2)).
Proof.
  intros Hd1 Hd2. unfold logExpenseCase. rewrite Hd1, Hd2.
  destruct (pretty_N_numeral (now_ms (clock w1))) as [Hnumeral1 Hread1].
  destruct (pretty_N_numeral (now_ms (clock w2))) as [Hnumeral2 Hread2].
  eexists _, _, _, _. split; [reflexivity|]. split; [reflexivity|]. simpl.
  split; [reflexivity|]. split; [exact Hnumeral1|]. split; [exact Hread1|].
  split; [reflexivity|]. split; [exact Hnumeral2|]. split; [exact Hread2|].
  split.
  - intros [= Heq]. by rewrite <- Hread1, <- Hread2, Heq.
  - by intros ->.
Qed.

Lemma log_expense_ids_witness :
  ∃ e1 e2,
    expenses (logExpenseCase (worldWith ParsedNull) undated initialStore).2
    = e1 :: expenses initialStore ∧
    expenses (logExpenseCase (aMillisecondLater ParsedNull) groceries initialStore).2
    = e2 :: expenses initialStore ∧
    e_id e1 = JStr "1709636400000" ∧ e_id e2 = JStr "1709636400001" ∧
    (e_id e1 = e_id e2 ↔
     now_ms (clock (worldWith ParsedNull))
     = now_ms (clock (aMillisecondLater ParsedNull))).
Proof.
  destruct (log_expense_ids (worldWith ParsedNull) (aMillisecondLater ParsedNull)
              undated groceries _ _ initialStore initialStore eq_refl eq_refl)
    as (e1 & e2 & n1 & n2 & H1 & H2 & Hid1 & _ & _ & Hid2 & _ & _ & Hiff).
  exists e1, e2. split; [exact H1|]. split; [exact H2|].
  injection H1 as <- . injection H2 as <- .
  split; [reflexivity|]. split; [reflexivity|]. exact Hiff.
Defined.

(** ** The assistant chat route *)

Lemma setBudgetCase_by_budget (parsed : ModelReply) (s1 s2 : Store) :
  budget s1 = budget s2 →
  (setBudgetCase parsed s1).1 = (setBudgetCase parsed s2).1 ∧
  budget (setBudgetCase parsed s1).2 = budget (setBudgetCase parsed s2).2.
Proof.
  intros Hbudget. unfold setBudgetCase. destruct (m_data parsed) as [d|]; [|done].
  unfold mbind, Handler_bind, read, write, getBudget; simpl. rewrite Hbudget.
  destruct (prop (d_category d)) as [| |[]|n|c]; simpl;
    repeat match goal with |- context [if ?b then _ else _] => destruct b; simpl end;
    done.
Qed.

Lemma chatPOST_respond (w : World) (req : Request) (s : Store) :
  chatPOST w req s
  = match chatAnswer w req s with
    | None => (Returned (replyOnly chatFallback), s)
    | Some parsed =>
        if negb (truthy (m_intent parsed))
        then (Returned (replyOnly chatFallback), s)
        else if strict_eq (m_intent parsed) (JStr "set_budget")
        then setBudgetCase parsed s
        else if strict_eq (m_intent parsed) (JStr "get_summary")
                || strict_eq (m_intent parsed) (JStr "get_advice")
        then getSummaryCase parsed s
        else (Returned (replyOnly (js_or (m_reply parsed) notSure)), s)
    end.
Proof.
  unfold chatPOST, chatAnswer, mbind, Handler_bind, read; simpl.
  destruct (callAssistantOllama _ _ _ _) as [parsed|]; [|done].
  by repeat case_match.
Qed.

Lemma setBudgetCase_response (parsed : ModelReply) (s : Store) (resp : Response) :
  (setBudgetCase parsed s).1 = Returned resp →
  updatedExpenses resp = None ∧ data resp = None.
Proof.
  unfold setBudgetCase. destruct (m_data parsed) as [d|]; [|done].
  unfold mbind, Handler_bind, read, write; simpl.
  destruct (prop (d_category d)) as [| |[]|n|c]; simpl;
    repeat match goal with |- context [if ?b then _ else _] => destruct b; simpl end;
    by intros [= <-].
Qed.

(** X13: the chat route never logs or changes an expense: whatever the
    model answers, the expense list and the last transaction stay as they
    were and the response carries no expense list; the budget changes only
    for the intent [set_budget]. *)
Theorem chatPOST_frame (w : World) (req : Request) (s : Store) :
  expenses (chatPOST w req s).2 = expenses s ∧
  lastTransaction (chatPOST w req s).2 = lastTransaction s ∧
  (∀ resp, (chatPOST w req s).1 = Returned resp →
           updatedExpenses resp = None ∧ data resp = None) ∧
  (budget (chatPOST w req s).2 ≠ budget s →
   ∃ parsed, chatAnswer w req s = Some parsed ∧ m_intent parsed = JStr "set_budget").
Proof.
  rewrite chatPOST_respond.
  destruct (chatAnswer w req s) as [parsed|]; simpl.
  2:{ repeat split; try done; by simplify_eq/=. }
  destruct (negb (truthy (m_intent parsed))); simpl.
  { repeat split; try done; by simplify_eq/=. }
  destruct (strict_eq (m_intent parsed) (JStr "set_budget")) eqn:Hset.
  { destruct (setBudgetCase_expenses parsed s) as [Hl Hlast].
    split; [done|]. split; [done|]. split.
    - intros resp. apply setBudgetCase_response.
    - intros _. exists parsed. split; [done|]. by apply strict_eq_true. }
  destruct (_ || _).
  - unfold getSummaryCase. destruct (m_data parsed) as [d|]; simpl.
    + repeat split; try done; by simplify_eq/=.
    + repeat split; try done.
  - repeat split; try done; by simplify_eq/=.
Qed.

(** X14: the chat route does not look at the model's [execution_status]:
    two answers that differ only in it are carried out alike (so a budget
    is set even under status ["ERROR"], which the entries route would answer
    with its fallback). *)
Theorem chat_ignores_status (w1 w2 : World) (req : Request) (s : Store)
    (parsed : ModelReply) (status : prim) :
  chatAnswer w1 req s = Some parsed →
  chatAnswer w2 req s = Some (with_status status parsed) →
  chatPOST w1 req s = chatPOST w2 req s.
Proof.
  intros H1 H2. rewrite !chatPOST_respond, H1, H2.
  unfold with_status, setBudgetCase, getSummaryCase; simpl. done.
Qed.

Lemma chat_ignores_status_witness :
  chatPOST (worldWith (ParsedValue (budgetFor (Some (JStr "Food")) 12000)))
    (say "food budget 12000") initialStore
  = chatPOST (worldWith (ParsedValue
                (with_status (JStr "ERROR") (budgetFor (Some (JStr "Food")) 12000))))
      (say "food budget 12000") initialStore.
Proof.
  exact (chat_ignores_status
           (worldWith (ParsedValue (budgetFor (Some (JStr "Food")) 12000)))
           (worldWith (ParsedValue
              (with_status (JStr "ERROR") (budgetFor (Some (JStr "Food")) 12000))))
           (say "food budget 12000") initialStore
           (budgetFor (Some (JStr "Food")) 12000) (JStr "ERROR") eq_refl eq_refl).
Defined.

Lemma chatPOST_body_throws (w : World) (req : Request) (s : Store) :
  (∃ error, (chatPOST w req s).1 = Thrown error) ↔
  ∃ parsed, chatAnswer w req s = Some parsed ∧ chat_failure parsed.
Proof.
  rewrite chatPOST_respond. unfold chat_failure, chat_reads_data.
  destruct (chatAnswer w req s) as [parsed|]; simpl.
  2:{ split; [by intros [? [=]] | by intros (? & [=] & _)]. }
  destruct (truthy (m_intent parsed)) eqn:Hintent; simpl.
  2:{ split; [by intros [? [=]]|]. intros (? & [= <-] & Htruthy & _). congruence. }
  destruct (strict_eq (m_intent parsed) (JStr "set_budget")) eqn:Hset; simpl.
  { apply strict_eq_true in Hset.
    destruct (m_data parsed) as [d|] eqn:Hdata.
    2:{ unfold setBudgetCase. rewrite Hdata. split.
        - intros _. exists parsed. split; [done|]. split; [done|]. left.
          split; [|done]. rewrite Hset. done.
        - intros _. by eexists. }
    destruct (classic_readable (prop (d_category d))) as [Hreadable|Hunreadable].
    - rewrite (setBudgetCase_returns parsed d s Hdata Hreadable). simpl. split.
      + by intros [? [=]].
      + intros (? & [= <-] & _ & [[_ Hnone]|(_ & d' & Hd' & Hunreadable)]);
          [congruence|]. assert (d' = d) as -> by congruence. done.
    - rewrite (unreadable_throws parsed d s Hdata Hunreadable). split.
      + intros _. exists parsed. split; [done|]. split; [done|]. right.
        split; [done|]. by exists d.
      + intros _. by eexists. }
  destruct (strict_eq (m_intent parsed) (JStr "get_summary")
            || strict_eq (m_intent parsed) (JStr "get_advice")) eqn:Hsummary.
  - unfold getSummaryCase. destruct (m_data parsed) as [d|] eqn:Hdata; simpl.
    + split; [by intros [? [=]]|].
      intros (? & [= <-] & _ & [[_ Hnone]|(Hbudget & _)]); [congruence|].
      apply strict_eq_true in Hbudget. congruence.
    + split; [|intros _; by eexists].
      intros _. exists parsed. split; [done|]. split; [done|]. left.
      split; [|done]. rewrite Hset. done.
  - split; [by intros [? [=]]|].
    intros (? & [= <-] & _ & [[Hreads _]|(Hbudget & _)]).
    + rewrite Hset in Hreads. simpl in Hreads. congruence.
    + apply strict_eq_true in Hbudget. congruence.
Qed.

(** X15: the chat handler throws exactly when the request body is not JSON
    or is [null], or the model's answer has an intent and either the intent
    is [set_budget], [get_summary] or [get_advice] with no data object, or
    it is [set_budget] with a category that is neither a string nor falsy.
    (For [get_advice] without data the entries route answers with the
    model's reply.) *)
Theorem chatPOST_throws_iff (w : World) (req : NextRequest) (s : Store) :
  (∃ error, (chatPOST w req s).1 = Thrown error) ↔
  req = JsonRejected ∨ req = JsonNull ∨
  ∃ body parsed, req = JsonBody body ∧ chatAnswer w body s = Some parsed ∧
                 chat_failure parsed.
Proof.
  destruct req as [| |body].
  - split; [by left | by eexists].
  - split; [by right; left | by eexists].
  - rewrite chatPOST_body_throws. split.
    + intros (parsed & Hanswer & Hfailure). right; right. by exists body, parsed.
    + intros [[=]|[[=]|(body' & parsed & [= <-] & Hanswer & Hfailure)]].
      by exists parsed.
Qed.

(** X16: for a [set_budget] answer that the entries route carries out, both
    routes do the same: they return the same response and leave the same
    budget. *)
Theorem routes_agree_on_set_budget
    (w : World) (req : Request) (s : Store) (parsed : ModelReply) :
  answer w req s = Some parsed →
  chatAnswer w req s = Some parsed →
  proceeds parsed = true →
  m_intent parsed = JStr "set_budget" →
  (POST w req s).1 = (chatPOST w req s).1 ∧
  budget (POST w req s).2 = budget (chatPOST w req s).2.
Proof.
  intros Hentries Hchat Hproceeds Hintent.
  rewrite POST_respond, Hentries, (respond_set_budget _ _ Hproceeds Hintent).
  rewrite chatPOST_respond, Hchat.
  destruct (proceeds_true _ Hproceeds) as (-> & _ & _). simpl.
  rewrite Hintent, (proj2 (strict_eq_true _ _) eq_refl).
  apply setBudgetCase_by_budget, hydrated_budget.
Qed.

Lemma routes_agree_on_set_budget_witness :
  (POST (worldWith (ParsedValue (budgetFor (Some (JStr "Food")) 12000)))
     requestWithBudget initialStore).1
  = (chatPOST (worldWith (ParsedValue (budgetFor (Some (JStr "Food")) 12000)))
       requestWithBudget initialStore).1 ∧
  budget (POST (worldWith (ParsedValue (budgetFor (Some (JStr "Food")) 12000)))
            requestWithBudget initialStore).2
  = budget (chatPOST (worldWith (ParsedValue (budgetFor (Some (JStr "Food")) 12000)))
              requestWithBudget initialStore).2.
Proof.
  exact (routes_agree_on_set_budget
           (worldWith (ParsedValue (budgetFor (Some (JStr "Food")) 12000)))
           requestWithBudget initialStore (budgetFor (Some (JStr "Food")) 12000)
           eq_refl eq_refl eq_refl eq_refl).
Defined.

(** ** The page and the entries route together *)

Lemma respond_reports_changes (w : World) (response : option ModelReply) (s : Store) :
  match respond w response s with
  | (Returned resp, s') =>
      match updatedExpenses resp with
      | Some l => l = expenses s'
      | None => expenses s' = expenses s ∧ lastTransaction s' = lastTransaction s
      end ∧
      match updatedBudget resp with
      | Some limits => limits = budget s'
      | None => budget s' = budget s
      end
  | (Thrown _, s') => s' = s
  end.
Proof.
  unfold respond. destruct response as [parsed|]; [|done].
  destruct (_ || _); [done|].
  destruct (strict_eq (m_execution_status parsed) _); [done|].
  destruct (strict_eq (m_intent parsed) (JStr "log_expense")).
  { unfold logExpenseCase. by destruct (m_data parsed). }
  destruct (strict_eq (m_intent parsed) (JStr "update_last_expense")).
  { unfold updateLastExpenseCase, mbind, Handler_bind, read, call, write; simpl.
    destruct (getLastTransaction s) as [lastTx|]; simpl; [|done].
    unfold updateExpenseById. by destruct (findIndex _ _). }
  destruct (strict_eq (m_intent parsed) (JStr "get_summary")).
  { unfold getSummaryCase. by destruct (m_data parsed). }
  destruct (strict_eq (m_intent parsed) (JStr "set_budget")).
  { unfold setBudgetCase. destruct (m_data parsed) as [d|]; [|done].
    unfold mbind, Handler_bind, read, write; simpl.
    destruct (prop (d_category d)) as [| |[]|n|c]; simpl;
      repeat match goal with |- context [if ?b then _ else _] => destruct b; simpl end;
      done. }
  by destruct (strict_eq (m_intent parsed) (JStr "get_advice")).
Qed.

(** X12: the entries handler reports every change it makes.  A response
    with an expense list carries the stored list; a response without one
    means that the stored list and last transaction are the hydrated ones.
    Likewise a response with a budget carries the stored budget, and one
    without means that the budget is unchanged.  A request that throws has
    changed nothing but the hydration. *)
Theorem POST_reports_changes (w : World) (req : Request) (s : Store) :
  match POST w req s with
  | (Returned resp, s') =>
      match updatedExpenses resp with
      | Some l => l = expenses s'
      | None => expenses s' = expenses (hydrated req s)
                ∧ lastTransaction s' = lastTransaction (hydrated req s)
      end ∧
      match updatedBudget resp with
      | Some limits => limits = budget s'
      | None => budget s' = budget s
      end
  | (Thrown _, s') => s' = hydrated req s
  end.
Proof.
  rewrite POST_respond.
  pose proof (respond_reports_changes w (answer w req s) (hydrated req s)) as H.
  destruct (respond w (answer w req s) (hydrated req s)) as [[resp|error] s'];
    [|done].
  by rewrite hydrated_budget in H.
Qed.






(** ** The store by reference *)

Section omap_facts.
Context {A B : Type} (f : A → option B).

Lemma omap_lookup_total (l : list A) :
  Forall (λ x, is_Some (f x)) l → ∀ i, omap f l !! i = l !! i ≫= f.
Proof.
  induction 1 as [|x l [y Hy] _ IH]; intros i; simpl; [done|].
  rewrite Hy. destruct i as [|i]; simpl; [done | apply IH].
Qed.

Lemma omap_length_total (l : list A) :
  Forall (λ x, is_Some (f x)) l → length (omap f l) = length l.
Proof.
  induction 1 as [|x l [y Hy] _ IH]; simpl; [done|]. rewrite Hy. simpl.
  by f_equal.
Qed.
End omap_facts.

Lemma has_id_findIndex (s : ByReference.RefStore) (id : prim) :
  Forall (λ r, is_Some (ByReference.objects s !! r)) (ByReference.refs s) →
  findIndex (ByReference.has_id s id) (ByReference.refs s)
  = findIndex (λ e, strict_eq (e_id e) id)
      (omap (λ r, ByReference.objects s !! r) (ByReference.refs s)).
Proof.
  induction 1 as [|r l [e He] _ IH]; simpl; [done|].
  unfold ByReference.has_id at 1. rewrite He. simpl. by rewrite IH.
Qed.

Lemma has_id_filter (s : ByReference.RefStore) (id : prim) :
  Forall (λ r, is_Some (ByReference.objects s !! r)) (ByReference.refs s) →
  omap (λ r, ByReference.objects s !! r)
    (filter (λ r, ByReference.has_id s id r = false) (ByReference.refs s))
  = filter (λ e, e_id e ≠ id)
      (omap (λ r, ByReference.objects s !! r) (ByReference.refs s)).
Proof.
  induction 1 as [|r l [e He] _ IH]; simpl; [done|].
  assert (ByReference.has_id s id r = strict_eq (e_id e) id) as Hid.
  { unfold ByReference.has_id. by rewrite He. }
  rewrite He, !filter_cons.
  destruct (decide (ByReference.has_id s id r = false)) as [Hne|Heq];
    destruct (decide (e_id e ≠ id)) as [Hne'|Heq']; simpl.
  - rewrite He. f_equal. exact IH.
  - rewrite Hid in Hne. by apply strict_eq_false in Hne.
  - exfalso. apply Heq. rewrite Hid. by apply strict_eq_false.
  - exact IH.
Qed.

Lemma fresh_not_held (s : ByReference.RefStore) (r : nat) :
  is_Some (ByReference.objects s !! r) → r ≠ fresh (dom (ByReference.objects s)).
Proof.
  intros Hr%elem_of_dom ->. by apply is_fresh in Hr.
Qed.

Lemma updateExpenseById_by_reference (id : prim) (updates : Updates)
    (s : ByReference.RefStore) :
  ByReference.wf s →
  ByReference.wf (ByReference.updateExpenseById id updates s).2 ∧
  (ByReference.updateExpenseById id updates s).1
  = (updateExpenseById id updates (ByReference.contents s)).1 ∧
  ByReference.contents (ByReference.updateExpenseById id updates s).2
  = (updateExpenseById id updates (ByReference.contents s)).2.
Proof.
  intros [Hrefs Hlast].
  unfold ByReference.updateExpenseById, updateExpenseById.
  rewrite (has_id_findIndex s id Hrefs). simpl.
  destruct (findIndex _ (omap _ _)) as [i|] eqn:Hfind; [|done].
  apply findIndex_Some in Hfind as [(old & Hold & _) _].
  rewrite (omap_lookup_total _ _ Hrefs) in Hold. rewrite Hold.
  destruct (ByReference.refs s !! i) as [ri|] eqn:Hri; [|done]. simpl in Hold.
  set (new := fresh (dom (ByReference.objects s))).
  assert (Forall (λ r, is_Some (<[new := spread old updates]> (ByReference.objects s) !! r))
            (<[i := new]> (ByReference.refs s))) as Hrefs'.
  { apply Forall_insert.
    - eapply Forall_impl; [exact Hrefs|]. intros r Hr. simpl.
      rewrite lookup_insert_ne; [done|]. symmetry. by apply fresh_not_held.
    - rewrite lookup_insert_eq. by eexists. }
  split; [split|split]; simpl.
  - exact Hrefs'.
  - intros r. destruct (ByReference.lastRef s) as [last|]; [|done].
    destruct (ByReference.has_id s id last).
    + intros [= <-]. rewrite lookup_insert_eq. by eexists.
    + intros [= <-]. rewrite lookup_insert_ne; [by apply Hlast|].
      symmetry. apply fresh_not_held. by apply Hlast.
  - done.
  - unfold ByReference.contents; simpl. f_equal.
    + apply list_eq. intros j. rewrite (omap_lookup_total _ _ Hrefs').
      destruct (decide (i = j)) as [<-|Hne].
      * rewrite list_lookup_insert_eq by (by eapply lookup_lt_Some).
        simpl. rewrite lookup_insert_eq, list_lookup_alter_eq.
        rewrite (omap_lookup_total _ _ Hrefs), Hri. simpl. by rewrite Hold.
      * rewrite list_lookup_insert_ne, list_lookup_alter_ne by done.
        rewrite (omap_lookup_total _ _ Hrefs).
        destruct (ByReference.refs s !! j) as [rj|] eqn:Hrj; simpl; [|done].
        rewrite lookup_insert_ne; [done|]. symmetry. apply fresh_not_held.
        by apply (proj1 (Forall_lookup _ _) Hrefs j).
    + destruct (ByReference.lastRef s) as [last|] eqn:Hlasteq; simpl; [|done].
      destruct (Hlast last eq_refl) as [e He]. rewrite He. simpl.
      unfold ByReference.has_id. rewrite He.
      destruct (strict_eq (e_id e) id); simpl.
      * rewrite lookup_insert_eq, list_lookup_alter_eq.
        rewrite (omap_lookup_total _ _ Hrefs), Hri. simpl. by rewrite Hold.
      * rewrite lookup_insert_ne; [done|]. symmetry. apply fresh_not_held.
        by eexists.
Qed.

Lemma sharedStore_wf : ByReference.wf sharedStore.
Proof.
  split.
  - repeat apply Forall_cons_2; try apply Forall_nil_2; by eexists.
  - intros r [= <-]. by eexists.
Qed.

(** X20: as long as only [setExpensesForRequest], [addExpense],
    [updateExpenseById], [deleteExpense], [clearExpenses] and
    [updateLastTransaction] are called, it cannot be observed that the array
    and the last transaction share objects: each operation on the store of
    references does, to the contents, what the operation on values does, and
    it leaves no reference dangling. *)
Theorem by_reference_refines (s : ByReference.RefStore) :
  ByReference.wf s →
  (∀ clientExpenses,
     Forall (λ r, is_Some (ByReference.objects s !! r)) clientExpenses →
     ByReference.wf (ByReference.setExpensesForRequest clientExpenses s) ∧
     ByReference.contents (ByReference.setExpensesForRequest clientExpenses s)
     = setExpensesForRequest
         (omap (λ r, ByReference.objects s !! r) clientExpenses)
         (ByReference.contents s)) ∧
  (∀ r e, ByReference.objects s !! r = Some e →
     ByReference.wf (ByReference.addExpense r s) ∧
     ByReference.contents (ByReference.addExpense r s)
     = addExpense e (ByReference.contents s)) ∧
  (∀ id updates,
     ByReference.wf (ByReference.updateExpenseById id updates s).2 ∧
     (ByReference.updateExpenseById id updates s).1
     = (updateExpenseById id updates (ByReference.contents s)).1 ∧
     ByReference.contents (ByReference.updateExpenseById id updates s).2
     = (updateExpenseById id updates (ByReference.contents s)).2) ∧
  (∀ id,
     ByReference.wf (ByReference.deleteExpense id s) ∧
     ByReference.contents (ByReference.deleteExpense id s)
     = deleteExpense id (ByReference.contents s)) ∧
  (ByReference.wf (ByReference.clearExpenses s) ∧
   ByReference.contents (ByReference.clearExpenses s)
   = clearExpenses (ByReference.contents s)) ∧
  (∀ r e, ByReference.objects s !! r = Some e →
     ByReference.wf (ByReference.updateLastTransaction (Some r) s) ∧
     ByReference.contents (ByReference.updateLastTransaction (Some r) s)
     = updateLastTransaction (Some e) (ByReference.contents s)) ∧
  (ByReference.wf (ByReference.updateLastTransaction None s) ∧
   ByReference.contents (ByReference.updateLastTransaction None s)
   = updateLastTransaction None (ByReference.contents s)).
Proof.
  intros Hwf. pose proof Hwf as [Hrefs Hlast].
  split; [|split; [|split; [|split; [|split; [|split]]]]].
  - intros l Hl. split.
    + split; simpl; [done|]. intros r.
      case_bool_decide; [|done]. intros Hr.
      by apply (proj1 (Forall_lookup _ _) Hl 0).
    + unfold ByReference.contents, setExpensesForRequest; simpl. f_equal.
      rewrite (omap_length_total _ _ Hl), (omap_lookup_total _ _ Hl).
      by case_bool_decide.
  - intros r e He. split.
    + split; simpl.
      * apply Forall_cons_2; [by eexists | done].
      * intros r' [= <-]. by eexists.
    + unfold ByReference.contents, addExpense; simpl. by rewrite He.
  - intros id updates. by apply updateExpenseById_by_reference.
  - intros id. split.
    + split; simpl; [|done]. apply Forall_forall.
      intros r [_ Hr]%list_elem_of_filter.
      by apply (proj1 (Forall_forall _ _) Hrefs).
    + unfold ByReference.contents, deleteExpense; simpl. f_equal.
      by apply has_id_filter.
  - split; [split; simpl; [apply Forall_nil_2 | done] | done].
  - intros r e He. split.
    + split; simpl; [done|]. intros r' [= <-]. by eexists.
    + unfold ByReference.contents, updateLastTransaction; simpl. by rewrite He.
  - split; [split; simpl; done | done].
Qed.

Lemma by_reference_refines_witness :
  ByReference.contents (ByReference.deleteExpense (JStr "1") sharedStore)
  = deleteExpense (JStr "1") (ByReference.contents sharedStore).
Proof.
  exact (proj2 (proj1 (proj2 (proj2 (proj2 (by_reference_refines sharedStore
                  sharedStore_wf)))) (JStr "1"))).
Defined.

Section findIndexE_facts.
Context {A : Type} (p : A → Outcome bool).

Lemma findIndexE_Some (l : list A) (i : nat) :
  ByReference.findIndexE p l = Returned (Some i) →
  (∃ x, l !! i = Some x ∧ p x = Returned true) ∧
  ∀ j y, j < i → l !! j = Some y → p y = Returned false.
Proof.
  revert i. induction l as [|x l IH]; intros i; simpl; [done|].
  destruct (p x) as [[|]|error] eqn:Hpx; [| |done].
  - intros [= <-]. split; [by exists x | intros j y Hj; lia].
  - destruct (ByReference.findIndexE p l) as [[k|]|error]; simpl; [|done|done].
    intros [= <-]. destruct (IH k eq_refl) as [Hhit Hbefore]. split; [done|].
    intros [|j] y Hj Hy; simpl in Hy.
    + by injection Hy as <-.
    + apply (Hbefore j); [lia | done].
Qed.

Lemma findIndexE_None (l : list A) :
  ByReference.findIndexE p l = Returned None → ∀ x, x ∈ l → p x = Returned false.
Proof.
  induction l as [|x l IH]; simpl.
  - intros _ y Hy. by apply elem_of_nil in Hy.
  - destruct (p x) as [[|]|error] eqn:Hpx; [done| |done].
    destruct (ByReference.findIndexE p l) as [[k|]|error]; simpl; [done| |done].
    intros _ y [->|Hy]%elem_of_cons; [done | by apply IH].
Qed.

Lemma findIndexE_returns (l : list A) :
  (∀ x, x ∈ l → ∃ b, p x = Returned b) →
  ∃ found, ByReference.findIndexE p l = Returned found.
Proof.
  induction l as [|x l IH]; intros Hall; simpl; [by eexists|].
  destruct (Hall x) as [[|] ->]; [by left|by eexists|].
  destruct IH as [found ->]; [|by eexists].
  intros y Hy. apply Hall. by right.
Qed.
End findIndexE_facts.

Lemma alter_as_insert_map (f : Expense → Expense) (m : gmap nat Expense)
    (r : nat) (e : Expense) :
  m !! r = Some e → alter f r m = <[r := f e]> m.
Proof.
  intros He. apply map_eq. intros r'.
  destruct (decide (r = r')) as [<-|Hne].
  - by rewrite lookup_alter_eq, lookup_insert_eq, He.
  - by rewrite lookup_alter_ne, lookup_insert_ne.
Qed.



(** The amount reaches a last transaction that is the matched object, and
    does not reach one that is a copy of it. *)
Example shared_last_transaction_sees_new_amount :
  lastTransaction
    (ByReference.contents
       (ByReference.updateExpenseByNoteAndDate toLowerCase "coffee" "05-03-2024"
          (JNum 150) sharedStore).2)
  = Some (ByReference.with_amount (JNum 150) latte).
Proof. reflexivity. Qed.

Example copied_last_transaction_keeps_old_amount :
  lastTransaction
    (ByReference.contents
       (ByReference.updateExpenseByNoteAndDate toLowerCase "coffee" "05-03-2024"
          (JNum 150)
          {| ByReference.objects := <[1 := latte]> (<[2 := bus]> (<[3 := latte]> ∅));
             ByReference.refs := [1; 2];
             ByReference.limits := ∅;
             ByReference.lastRef := Some 3 |}).2)
  = Some latte.
Proof. reflexivity. Qed.

Lemma typed_text_matches (lower : string → string) (note date : string)
    (e : Expense) :
  ByReference.typed_text e → ∃ b, ByReference.matches lower note date e = Returned b.
Proof.
  intros [[Hnote|[n Hnote]] [c Hcategory]]; unfold ByReference.matches;
    rewrite Hnote, Hcategory; [by eexists|].
  destruct (String.eqb (lower n) (lower note)); by eexists.
Qed.

(** X22: on a store whose notes are strings or missing and whose
    categories are strings, [updateExpenseByNoteAndDate] does not throw; it
    returns [true] exactly when some expense of the list matches, and when
    it returns [false] the store is unchanged. *)
Theorem updateExpenseByNoteAndDate_found (lower : string → string)
    (note date : string) (newAmount : prim) (s : ByReference.RefStore) :
  ByReference.wf s →
  (∀ r e, ByReference.objects s !! r = Some e → ByReference.typed_text e) →
  ∃ found,
    (ByReference.updateExpenseByNoteAndDate lower note date newAmount s).1
    = Returned found ∧
    (found = true ↔
     ∃ r e, r ∈ ByReference.refs s ∧ ByReference.objects s !! r = Some e ∧
            ByReference.matches lower note date e = Returned true) ∧
    (found = false →
     (ByReference.updateExpenseByNoteAndDate lower note date newAmount s).2 = s).
Proof.
  intros [Hrefs Hlast] Htyped. unfold ByReference.updateExpenseByNoteAndDate.
  destruct (findIndexE_returns (ByReference.matches_ref lower s note date)
              (ByReference.refs s)) as [found Hfound].
  { intros r Hr. unfold ByReference.matches_ref.
    destruct (proj1 (Forall_forall _ _) Hrefs r Hr) as [e He]. rewrite He.
    by eapply typed_text_matches, Htyped. }
  rewrite Hfound. destruct found as [i|].
  - apply findIndexE_Some in Hfound as [(r & Hr & Hmatch) _].
    rewrite Hr. exists true. simpl. split; [done|]. split; [|done].
    split; [|done]. intros _. unfold ByReference.matches_ref in Hmatch.
    destruct (ByReference.objects s !! r) as [e|] eqn:He; [|done].
    exists r, e. split; [by eapply list_elem_of_lookup_2 | done].
  - exists false. simpl. split; [done|]. split; [|done].
    split; [done|]. intros (r & e & Hr & He & Hmatch).
    pose proof (findIndexE_None _ _ Hfound r Hr) as Hno.
    unfold ByReference.matches_ref in Hno. rewrite He in Hno. congruence.
Qed.

Lemma updateExpenseByNoteAndDate_found_witness :
  ∃ found,
    (ByReference.updateExpenseByNoteAndDate toLowerCase "Taxi" "04-03-2024"
       (JNum 60) sharedStore).1 = Returned found ∧
    (found = false →
     (ByReference.updateExpenseByNoteAndDate toLowerCase "Taxi" "04-03-2024"
        (JNum 60) sharedStore).2 = sharedStore).
Proof.
  destruct (updateExpenseByNoteAndDate_found toLowerCase "Taxi" "04-03-2024"
              (JNum 60) sharedStore sharedStore_wf) as (found & Hfound & _ & Hsame).
  - intros r e He. unfold sharedStore in He. simpl in He.
    destruct (decide (r = 1)) as [->|H1].
    + rewrite lookup_insert_eq in He. injection He as <-.
      split; [right; by eexists | by eexists].
    + rewrite lookup_insert_ne in He by done.
      destruct (decide (r = 2)) as [->|H2].
      * rewrite lookup_insert_eq in He. injection He as <-.
        split; [by left | by eexists].
      * rewrite lookup_insert_ne in He by done. by rewrite lookup_empty in He.
  - exists found. split; [exact Hfound | exact Hsame].
Defined.
